(** * kai: feeds, control server and image server

    A shallow embedding of the coordination core of the repository
    ([feeds.py], [control_server.py], [image_server.py], and what [ui.py]
    reads from the ready directory and writes to the feeds) and the
    properties of its specification.

    Modelling conventions.
    - A Python [str] is a [string]; the functions of [PyStr] follow
      Python's on ASCII text (code points below 128), which is what the
      feeds, the commands and the artifact names of the system are made of.
    - The feed directory is a finite map from the path of a feed file to its
      text.  The two image directories are association lists from entry name
      to content, in the order [os.listdir] reports them; entry names are
      plain file names.  The three directories exist: [feeds.py] creates the
      first when it is imported, [main] of the image server the other two
      before its loop.
    - [print] and [time.sleep] have no counterpart.
    - Code that raises or writes files runs in the monad [io], state passing
      over the [World] with an exception result.
    - The person detector and the outcome of [os.remove] are not part of the
      repository: they are variables of the sections that use them. *)

From Stdlib Require Import String Ascii List Arith Lia Bool.
From stdpp Require Import base option list gmap strings.

(** ** Python strings *)

Module PyStr.

Definition LF : ascii := "010"%char.
Definition CR : ascii := "013"%char.

(** [str.isspace] on one ASCII character: TAB, LF, VT, FF, CR, the four
    separators FS, GS, RS, US and the space. *)
Definition is_space (c : ascii) : bool :=
  let n := nat_of_ascii c in
  ((9 <=? n) && (n <=? 13)) || ((28 <=? n) && (n <=? 32)).

Fixpoint lstrip (s : string) : string :=
  match s with
  | EmptyString => EmptyString
  | String c s' => if is_space c then lstrip s' else s
  end.

Fixpoint rstrip (s : string) : string :=
  match s with
  | EmptyString => EmptyString
  | String c s' =>
      match rstrip s' with
      | EmptyString => if is_space c then EmptyString else String c EmptyString
      | r => String c r
      end
  end.

(** [s.strip()] *)
Definition strip (s : string) : string := lstrip (rstrip s).

(** [s.rstrip("\n")] *)
Fixpoint rstrip_nl (s : string) : string :=
  match s with
  | EmptyString => EmptyString
  | String c s' =>
      match rstrip_nl s' with
      | EmptyString => if Ascii.eqb c LF then EmptyString else String c EmptyString
      | r => String c r
      end
  end.

Definition upper_char (c : ascii) : ascii :=
  let n := nat_of_ascii c in
  if (97 <=? n) && (n <=? 122) then ascii_of_nat (n - 32) else c.

Definition lower_char (c : ascii) : ascii :=
  let n := nat_of_ascii c in
  if (65 <=? n) && (n <=? 90) then ascii_of_nat (n + 32) else c.

Fixpoint map_chars (f : ascii -> ascii) (s : string) : string :=
  match s with
  | EmptyString => EmptyString
  | String c s' => String (f c) (map_chars f s')
  end.

Definition upper : string -> string := map_chars upper_char.
Definition lower : string -> string := map_chars lower_char.

(** [s.startswith(p)] *)
Definition startswith (p s : string) : bool := String.prefix p s.

(** [s.endswith(p)] *)
Fixpoint endswith (p s : string) : bool :=
  String.eqb s p ||
  match s with
  | EmptyString => false
  | String _ s' => endswith p s'
  end.

(** [c in s] for a single character *)
Fixpoint contains (c : ascii) (s : string) : bool :=
  match s with
  | EmptyString => false
  | String x s' => Ascii.eqb x c || contains c s'
  end.

(** [s[n:]] *)
Fixpoint slice_from (n : nat) (s : string) : string :=
  match n, s with
  | O, _ => s
  | S _, EmptyString => EmptyString
  | S n', String _ s' => slice_from n' s'
  end.

(** [s.rsplit(sep, 1)] for a one-character separator: [Some (a, b)] for the
    two-element result [[a, b]], [None] for the one-element result [[s]]
    that Python returns when [sep] does not occur. *)
Fixpoint rsplit1 (sep : ascii) (s : string) : option (string * string) :=
  match s with
  | EmptyString => None
  | String c s' =>
      match rsplit1 sep s' with
      | Some (a, b) => Some (String c a, b)
      | None => if Ascii.eqb c sep then Some (EmptyString, s') else None
      end
  end.

Fixpoint all_chars (p : ascii -> bool) (s : string) : bool :=
  match s with
  | EmptyString => true
  | String c s' => p c && all_chars p s'
  end.

(** [os.path.basename] *)
Definition basename (p : string) : string :=
  match rsplit1 "/"%char p with
  | Some (_, b) => b
  | None => p
  end.

(** [os.path.splitext]: the extension starts at the last dot of the last
    path component, unless only dots precede it there. *)
Definition splitext (p : string) : string * string :=
  let '(dir, name) :=
    match rsplit1 "/"%char p with
    | Some (d, b) => (d +:+ "/", b)
    | None => (EmptyString, p)
    end in
  match rsplit1 "."%char name with
  | Some (root, ext) =>
      if all_chars (Ascii.eqb "."%char) root then (p, EmptyString)
      else (dir +:+ root, String "."%char ext)
  | None => (p, EmptyString)
  end.

(** [os.path.join] of two components *)
Definition path_join (a b : string) : string :=
  if startswith "/" b then b
  else if String.eqb a "" || endswith "/" a then a +:+ b
  else a +:+ "/" +:+ b.

(** Text-mode reading ([newline=None]): CR LF and a lone CR become LF. *)
Fixpoint universal_newlines (s : string) : string :=
  match s with
  | EmptyString => EmptyString
  | String c s' =>
      if Ascii.eqb c CR then
        match s' with
        | String c' _ =>
            if Ascii.eqb c' LF then universal_newlines s'
            else String LF (universal_newlines s')
        | EmptyString => String LF EmptyString
        end
      else String c (universal_newlines s')
  end.

(** [handle.readlines()] on translated text: lines keep their LF; the last
    line may lack one. *)
Fixpoint readlines (s : string) : list string :=
  match s with
  | EmptyString => []
  | String c s' =>
      if Ascii.eqb c LF then String c EmptyString :: readlines s'
      else match readlines s' with
           | [] => [String c EmptyString]
           | l :: ls => String c l :: ls
           end
  end.

(** Truth value of a string: non-empty. *)
Definition truthy (s : string) : bool := negb (String.eqb s "").

End PyStr.

Import PyStr.

(** ** The world and the [io] monad *)

(** Exceptions that escape a function of the repository. *)
Inductive exn : Type :=
| ValueError (msg : string).

(** A directory: entry names with their content, in [os.listdir] order. *)
Abbreviation directory := (list (string * string)).

Record World : Type := mkWorld {
  feed_files : gmap string string;   (* files of the directory [feeds] *)
  images_src : directory;            (* directory [images_src] *)
  images_ready : directory;          (* directory [images_ready] *)
  random_pos : nat                   (* draws taken from [random.random] *)
}.

Definition set_feed_files (f : gmap string string) (w : World) : World :=
  mkWorld f (images_src w) (images_ready w) (random_pos w).
Definition set_images_ready (d : directory) (w : World) : World :=
  mkWorld (feed_files w) (images_src w) d (random_pos w).
Definition set_random_pos (n : nat) (w : World) : World :=
  mkWorld (feed_files w) (images_src w) (images_ready w) n.

Definition io (A : Type) : Type := World -> exn + (A * World).

Definition io_ret {A} (a : A) : io A := fun w => inr (a, w).
Definition io_bind {A B} (m : io A) (k : A -> io B) : io B :=
  fun w => match m w with
           | inl e => inl e
           | inr (a, w') => k a w'
           end.
Definition raise {A} (e : exn) : io A := fun _ => inl e.
Definition get_world : io World := fun w => inr (w, w).
Definition modify_world (f : World -> World) : io unit := fun w => inr (tt, f w).

#[global] Instance io_mret : MRet io := @io_ret.
#[global] Instance io_mbind : MBind io := fun A B k m => io_bind m k.

(** A [for] loop whose body runs for its effects. *)
Fixpoint for_each {A} (l : list A) (body : A -> io unit) : io unit :=
  match l with
  | [] => io_ret tt
  | x :: l' => body x ≫= λ _, for_each l' body
  end.

(** A [for] loop that threads a local variable of the caller. *)
Fixpoint for_fold {A S} (l : list A) (body : A -> S -> io S) (s : S) : io S :=
  match l with
  | [] => mret s
  | x :: l' => body x s ≫= for_fold l' body
  end.

(** ** Python dictionaries

    A [dict] keeps its keys in insertion order; assigning to a key that is
    present keeps the key's place. *)

Abbreviation dict V := (list (string * V)).

Fixpoint dict_set {V} (k : string) (v : V) (d : dict V) : dict V :=
  match d with
  | [] => [(k, v)]
  | (k', v') :: d' =>
      if String.eqb k' k then (k, v) :: d' else (k', v') :: dict_set k v d'
  end.

Fixpoint dict_get {V} (k : string) (d : dict V) : option V :=
  match d with
  | [] => None
  | (k', v') :: d' => if String.eqb k' k then Some v' else dict_get k d'
  end.

(** [x in {...}] for a set literal of strings *)
Definition in_set (x : string) (l : list string) : bool := existsb (String.eqb x) l.

(** ** feeds.py *)

Module Feeds.

Definition FEED_ROOT : string := "feeds".

(** [_feed_path] *)
Definition _feed_path (feed_name : string) : io string :=
  let sanitized := strip feed_name in
  if negb (truthy sanitized) then raise (ValueError "feed_name must be non-empty")
  else io_ret (path_join FEED_ROOT (sanitized +:+ ".feed")).

(** [handle.write] on a file opened with mode ["a"]: the file is created
    when missing and the text goes to its end. *)
Definition write_append (path text : string) : io unit :=
  modify_world (fun w =>
    set_feed_files
      (<[path := default "" (feed_files w !! path) +:+ text]> (feed_files w)) w).

(** [append_message] *)
Definition append_message (feed_name message : string) : io unit :=
  path ← _feed_path feed_name;
  write_append path (rstrip_nl message +:+ String LF "").

(** [append_messages]; opening the file creates it even for no message. *)
Definition append_messages (feed_name : string) (messages : list string) : io unit :=
  path ← _feed_path feed_name;
  write_append path "";;
  for_each messages (fun message =>
    write_append path (rstrip_nl message +:+ String LF "")).

(** [[line.strip() for line in handle.readlines() if line.strip()]] *)
Definition stripped_lines (text : string) : list string :=
  map strip (filter (fun line => truthy (strip line) = true)
                    (readlines (universal_newlines text))).

(** [consume_messages] *)
Definition consume_messages (feed_name : string) : io (list string) :=
  path ← _feed_path feed_name;
  w ← get_world;
  match feed_files w !! path with
  | None => io_ret []
  | Some text =>
      let lines := stripped_lines text in
      modify_world (set_feed_files (<[path := ""]> (feed_files w)));;
      io_ret lines
  end.

(** [peek_messages] *)
Definition peek_messages (feed_name : string) : io (list string) :=
  path ← _feed_path feed_name;
  w ← get_world;
  match feed_files w !! path with
  | None => io_ret []
  | Some text => io_ret (stripped_lines text)
  end.

(** [clear_feed] *)
Definition clear_feed (feed_name : string) : io unit :=
  path ← _feed_path feed_name;
  w ← get_world;
  match feed_files w !! path with
  | None => io_ret tt
  | Some _ => modify_world (set_feed_files (<[path := ""]> (feed_files w)))
  end.

End Feeds.

(** ** control_server.py *)

Module ControlServer.
Import Feeds.

Definition CONTROL_FEED : string := "control".
Definition POWER_FEED : string := "POWER".
Definition INACTIVITY_THRESHOLD : nat := 10.

(** [_parse_status_filename] *)
Definition _parse_status_filename (filename : string) : option (string * string) :=
  let '(stem, ext) := splitext filename in
  if negb (in_set (lower ext) [".jpg"; ".jpeg"; ".png"]) then None
  else if negb (contains "_"%char stem) then None
  else match rsplit1 "_"%char stem with
       | None => None
       | Some (camera_id, status) =>
           let status := upper status in
           if negb (startswith "CAM_" camera_id) then None
           else if negb (in_set status ["YES"; "NO"]) then None
           else Some (camera_id, status)
       end.

(** [get_camera_status]: later entries of the listing overwrite earlier
    ones of the same camera. *)
Definition get_camera_status : io (dict string) :=
  w ← get_world;
  mret (fold_left
          (fun statuses filename =>
             match _parse_status_filename filename with
             | Some (camera_id, status) => dict_set camera_id status statuses
             | None => statuses
             end)
          (map fst (images_ready w)) []).

(** [write_to_power_feed] *)
Definition write_to_power_feed (content : string) : io unit :=
  append_message POWER_FEED content.

(** Body of the loop of [read_control_feed]; [continue] ends the body. *)
Definition handle_command (command : string) : io unit :=
  let command := strip command in
  if negb (startswith "SET_CAM_" command) then mret tt
  else
    match rsplit1 "_"%char (slice_from (String.length "SET_") command) with
    | None => mret tt
    | Some (target, desired_state) =>
        let desired_state := upper desired_state in
        if negb (in_set desired_state ["ON"; "OFF"]) then mret tt
        else write_to_power_feed (target +:+ "_" +:+ desired_state)
    end.

(** [read_control_feed] *)
Definition read_control_feed : io unit :=
  commands ← consume_messages CONTROL_FEED;
  for_each commands handle_command.

(** [camera_inactivity_count.get(cam_id, 0)] *)
Definition count_of (counts : gmap string nat) (cam_id : string) : nat :=
  default 0 (counts !! cam_id).

(** Body of the loop over [statuses.items()] in [main]. *)
Definition observe_status (item : string * string) (counts : gmap string nat)
  : io (gmap string nat) :=
  let '(cam_id, status) := item in
  let counts :=
    if String.eqb status "NO" then <[cam_id := count_of counts cam_id + 1]> counts
    else <[cam_id := 0]> counts in
  if INACTIVITY_THRESHOLD <=? count_of counts cam_id then
    write_to_power_feed (cam_id +:+ "_OFF");;
    mret (<[cam_id := 0]> counts)
  else mret counts.

Definition inactivity_pass (statuses : dict string) (counts : gmap string nat)
  : io (gmap string nat) :=
  for_fold statuses observe_status counts.

(** One turn of the loop of [main], up to the sleep. *)
Definition main_iteration (counts : gmap string nat) : io (gmap string nat) :=
  read_control_feed;;
  statuses ← get_camera_status;
  inactivity_pass statuses counts.


End ControlServer.

(** ** image_server.py *)

Module ImageServer.
Import Feeds.

Definition IMAGE_SRC_DIR : string := "images_src".
Definition IMAGE_READY_DIR : string := "images_ready".
Definition FORCE_REQUEST_FEED : string := "force_request".
Definition FORCE_SERVED_FEED : string := "force_served".
Definition BATCH_SIZE : nat := 25.

(** [range(0, stop, step)] for a positive [step] *)
Definition py_range (stop step : nat) : list nat :=
  map (fun k => k * step) (seq 0 ((stop + step - 1) / step)).

(** [l[i:j]] *)
Definition slice {A} (i j : nat) (l : list A) : list A := take (j - i) (drop i l).

(** Entry [name] of a directory. *)
Fixpoint dir_lookup (name : string) (d : directory) : option string :=
  match d with
  | [] => None
  | (n, c) :: d' => if String.eqb n name then Some c else dir_lookup name d'
  end.

(** Writing a file: an existing entry gets the new content, a new entry
    is added to the listing. *)
Fixpoint dir_write (name content : string) (d : directory) : directory :=
  match d with
  | [] => [(name, content)]
  | (n, c) :: d' =>
      if String.eqb n name then (n, content) :: d' else (n, c) :: dir_write name content d'
  end.

(** Reading a path: the files that are read are those of [images_src]. *)
Definition read_source (path : string) (w : World) : option string :=
  let pre := IMAGE_SRC_DIR +:+ "/" in
  if startswith pre path then dir_lookup (slice_from (String.length pre) path) (images_src w)
  else None.

(** [_camera_id_from_path]: both branches return the stem. *)
Definition _camera_id_from_path (image_path : string) : string :=
  let filename := basename image_path in
  let stem := fst (splitext filename) in
  if startswith "CAM_" stem then stem else stem.

(** [_parse_ready_filename] *)
Definition _parse_ready_filename (filename : string) : option (string * string) :=
  let '(stem, ext) := splitext filename in
  if negb (in_set (lower ext) [".jpg"; ".jpeg"; ".png"]) then None
  else if negb (contains "_"%char stem) then None
  else match rsplit1 "_"%char stem with
       | None => None
       | Some (base, status) =>
           let status := upper status in
           if negb (in_set status ["YES"; "NO"]) then None
           else if negb (startswith "CAM_" base) then None
           else Some (base, status)
       end.

(** [if parsed and parsed[0] == camera_id] *)
Definition is_artifact_of (camera_id entry : string) : bool :=
  match _parse_ready_filename entry with
  | Some (base, _) => String.eqb base camera_id
  | None => false
  end.

Section Collaborators.

(** [MODEL] is [None] when the detector failed to load.  Otherwise
    [MODEL.predict] on a list of paths raises ([None]) or returns one
    result per image, of which the code reads [len(result.boxes)]. *)
Variable MODEL : option (list string -> option (list nat)).

(** Outcome of the [n]-th evaluation of [random.random() > 0.5]. *)
Variable random_gt_half : nat -> bool.

(** Whether [os.remove] succeeds on an entry of [images_ready]. *)
Variable remove_ok : string -> bool.

(** The loop over [enumerate(predictions)]; an index past the end of
    [image_paths] raises, which the [except] clause absorbs. *)
Fixpoint mark_detections (image_paths : list string) (i : nat)
    (predictions : list nat) (results_map : dict string) : dict string :=
  match predictions with
  | [] => results_map
  | boxes :: rest =>
      if 0 <? boxes then
        match image_paths !! i with
        | Some path =>
            mark_detections image_paths (S i) rest (dict_set path "YES" results_map)
        | None => results_map
        end
      else mark_detections image_paths (S i) rest results_map
  end.

(** [detect_person_in_batch] *)
Definition detect_person_in_batch (image_paths : list string) : io (dict string) :=
  match MODEL with
  | None =>
      for_fold image_paths
        (fun path results =>
           w ← get_world;
           modify_world (set_random_pos (S (random_pos w)));;
           mret (dict_set path
                   (if random_gt_half (random_pos w) then "YES" else "NO") results))
        []
  | Some predict =>
      let results_map := fold_left (fun d path => dict_set path "NO" d) image_paths [] in
      match predict image_paths with
      | Some predictions => mret (mark_detections image_paths 0 predictions results_map)
      | None => mret results_map
      end
  end.

(** [_remove_existing_ready_file] *)
Definition _remove_existing_ready_file (camera_id : string) : io unit :=
  modify_world (fun w =>
    set_images_ready
      (filter (fun entry => negb (is_artifact_of camera_id entry.1 && remove_ok entry.1))
              (images_ready w)) w).

(** [_write_ready_image]; the extension computed from [source_path] is
    not used for the destination, which always ends in [.jpg]. *)
Definition _write_ready_image (source_path camera_id status : string) : io unit :=
  let destination_name := camera_id +:+ "_" +:+ status +:+ ".jpg" in
  _remove_existing_ready_file camera_id;;
  w ← get_world;
  match read_source source_path w with
  | Some content =>
      modify_world (set_images_ready (dir_write destination_name content (images_ready w)))
  | None => mret tt
  end.

(** [_list_source_images] *)
Definition _list_source_images : io (list string) :=
  w ← get_world;
  mret (map (path_join IMAGE_SRC_DIR)
          (filter (fun entry =>
                     (endswith ".jpg" (lower entry) || endswith ".jpeg" (lower entry)
                      || endswith ".png" (lower entry))
                     && startswith "CAM_" (fst (splitext entry)))
                  (map fst (images_src w)))).

(** Body of the loop over [detection_results.items()] *)
Definition write_detection (item : string * string) : io unit :=
  let '(img_path, status) := item in
  let camera_id := _camera_id_from_path img_path in
  let status_token := upper status in
  let status_token := if negb (in_set status_token ["YES"; "NO"]) then "NO" else status_token in
  _write_ready_image img_path camera_id status_token.

(** One batch of [capture_and_update_images] *)
Definition process_batch (batch_paths : list string) : io unit :=
  detection_results ← detect_person_in_batch batch_paths;
  for_each detection_results write_detection.

(** [capture_and_update_images] with the batch size as a parameter *)
Definition capture_with (batch_size : nat) : io unit :=
  all_image_files ← _list_source_images;
  if bool_decide (all_image_files = []) then mret tt
  else
    for_each (py_range (length all_image_files) batch_size)
      (fun i => process_batch (slice i (i + batch_size) all_image_files)).

(** [capture_and_update_images] *)
Definition capture_and_update_images : io unit := capture_with BATCH_SIZE.


(** The search for the source image in [process_force_requests] *)
Definition find_source (cam_id : string) (w : World) : option string :=
  path_join IMAGE_SRC_DIR <$>
    find (fun filename =>
            let '(stem, ext) := splitext filename in
            in_set (lower ext) [".jpg"; ".jpeg"; ".png"] && String.eqb stem cam_id)
         (map fst (images_src w)).

(** Body of the loop of [process_force_requests] *)
Definition serve_force_request (req : string) : io unit :=
  if negb (startswith "FORCE_UPDATE_" req) then mret tt
  else
    let cam_id := strip (slice_from (String.length "FORCE_UPDATE_") req) in
    if negb (truthy cam_id) then mret tt
    else if negb (startswith "CAM_" cam_id) then mret tt
    else
      w ← get_world;
      match find_source cam_id w with
      | None => mret tt
      | Some source_image_path =>
          detection_result ← detect_person_in_batch [source_image_path];
          let status := upper (default "NO" (dict_get source_image_path detection_result)) in
          let status := if negb (in_set status ["YES"; "NO"]) then "NO" else status in
          _write_ready_image source_image_path cam_id status;;
          append_message FORCE_SERVED_FEED ("UPDATED_" +:+ cam_id)
      end.

(** [process_force_requests] *)
Definition process_force_requests : io unit :=
  requests ← consume_messages FORCE_REQUEST_FEED;
  for_each requests serve_force_request.

End Collaborators.

End ImageServer.

(** ** ui.py

    The functions of the dashboard that read the ready directory or write to
    the feeds.  The widgets have no counterpart; a camera panel is its
    camera id and its power state. *)

Module UI.
Import Feeds.

Definition IMAGE_DIR : string := "images_ready".
Definition FORCE_REQUEST_FEED : string := "force_request".
Definition FORCE_SERVED_FEED : string := "force_served".
Definition CONTROL_FEED : string := "control".

(** [_parse_ready_filename] *)
Definition _parse_ready_filename (filename : string) : option (string * string) :=
  let '(stem, ext) := splitext filename in
  if negb (in_set (lower ext) [".jpg"; ".jpeg"; ".png"]) then None
  else if negb (contains "_"%char stem) then None
  else match rsplit1 "_"%char stem with
       | None => None
       | Some (camera_id, status) =>
           let status := upper status in
           if negb (startswith "CAM_" camera_id) then None
           else if negb (in_set status ["YES"; "NO"]) then None
           else Some (camera_id, status)
       end.

(** [discover_cameras]: camera id to the path of its artifact and its status *)
Definition discover_cameras : io (dict (string * string)) :=
  w ← get_world;
  mret (fold_left
          (fun cameras filename =>
             match _parse_ready_filename filename with
             | Some (camera_id, status) =>
                 dict_set camera_id (path_join IMAGE_DIR filename, status) cameras
             | None => cameras
             end)
          (map fst (images_ready w)) []).

(** [Dashboard.send_control_command] *)
Definition send_control_command (camera_id new_state : string) : io unit :=
  let new_state := upper new_state in
  let message := "SET_" +:+ camera_id +:+ "_" +:+ new_state in
  append_message CONTROL_FEED message.

(** [Dashboard.request_force_update], on the set [pending_force_updates] *)
Definition request_force_update (camera_id : string) (pending_force_updates : gset string)
  : io (gset string) :=
  let pending_force_updates := {[camera_id]} ∪ pending_force_updates in
  append_message FORCE_REQUEST_FEED ("FORCE_UPDATE_" +:+ camera_id);;
  mret pending_force_updates.

(** [CameraPanel._handle_toggle] on the panel's power state, its callback
    being [send_control_command] as [Dashboard.load_cameras] binds it *)
Definition _handle_toggle (camera_id power_state : string) : io string :=
  let new_state := if String.eqb power_state "ON" then "OFF" else "ON" in
  send_control_command camera_id new_state;;
  mret new_state.

End UI.

(** ** Definitions used in the statements and proofs *)

Import Feeds ControlServer ImageServer.

(** A line scanner that yields the messages of a feed text in one pass:
    [cur] is the line read so far. *)
Definition is_eol (c : ascii) : bool := Ascii.eqb c LF || Ascii.eqb c CR.

Definition emit (cur : string) : list string :=
  if truthy (strip cur) then [strip cur] else [].

Fixpoint scan (cur s : string) : list string :=
  match s with
  | EmptyString => emit cur
  | String c s' =>
      if is_eol c then emit cur ++ scan "" s'
      else scan (cur +:+ String c "") s'
  end.

(** The text of a feed file as the feed operations leave it. *)
Definition terminated (text : string) : Prop :=
  text = "" \/ exists t, text = t +:+ String LF "".

(** The comprehension of [stripped_lines] on a list of lines, and a line
    put before the first of a list of lines. *)
Definition lines_messages (ls : list string) : list string :=
  map strip (filter (fun line => truthy (strip line) = true) ls).

Definition prepend (cur : string) (ls : list string) : list string :=
  match ls with
  | [] => [cur]
  | l :: ls' => (cur +:+ l) :: ls'
  end.

(** Path of the file behind a feed name that is not blank. *)
Definition feed_file (feed_name : string) : string :=
  path_join Feeds.FEED_ROOT (strip feed_name +:+ ".feed").

Definition is_text_char (c : ascii) : bool := negb (is_eol c).

(** The empty world: no feed file, empty image directories. *)
Definition empty_world : World := mkWorld ∅ [] [] 0.

(** The feed operations keep every feed file empty or ended by a line
    terminator. *)
Definition feeds_terminated (w : World) : Prop :=
  forall path text, feed_files w !! path = Some text -> terminated text.

(** The world after [append_message POWER_FEED msg]. *)
Definition power_append (msg : string) (w : World) : World :=
  set_feed_files
    (<[feed_file ControlServer.POWER_FEED :=
         default "" (feed_files w !! feed_file ControlServer.POWER_FEED)
         +:+ (rstrip_nl msg +:+ String LF "")]> (feed_files w)) w.

(** Entry names of a directory hold no path separator. *)
Definition plain_names (d : directory) : Prop :=
  Forall (fun entry => contains "/"%char entry.1 = false) d.

(** The two verdict tokens. *)
Definition is_verdict (status : string) : Prop := status = "YES" \/ status = "NO".

(** The name of the status artifact of a camera. *)
Definition artifact_name (camera_id status : string) : string :=
  camera_id +:+ "_" +:+ status +:+ ".jpg".

(** The verdict the detector returned for the [i]-th identifier of a batch:
    [YES] for a result with boxes, [NO] for a result without, and also [NO]
    when the call raised or returned no [i]-th result. *)
Definition returned_verdict (answer : option (list nat)) (i : nat) : string :=
  match answer with
  | Some predictions =>
      match predictions !! i with
      | Some boxes => if 0 <? boxes then "YES" else "NO"
      | None => "NO"
      end
  | None => "NO"
  end.

(** The step of the fold in [get_camera_status]. *)
Definition status_step (statuses : dict string) (filename : string) : dict string :=
  match ControlServer._parse_status_filename filename with
  | Some (camera_id, status) => dict_set camera_id status statuses
  | None => statuses
  end.

(** [status.upper()] with the fall-back to [NO] *)
Definition status_token (status : string) : string :=
  if negb (in_set (upper status) ["YES"; "NO"]) then "NO" else upper status.


Section ClosedForms.

Variable remove_ok : string -> bool.

(** The listing of [images_ready] once [_remove_existing_ready_file] ran. *)
Definition after_remove (cam : string) (d : directory) : directory :=
  filter (fun entry => negb (is_artifact_of cam entry.1 && remove_ok entry.1)) d.

(** What [_write_ready_image] leaves, in closed form. *)
Definition written (src cam status : string) (w : World) : World :=
  match read_source src w with
  | Some content =>
      set_images_ready
        (dir_write (artifact_name cam status) content (after_remove cam (images_ready w))) w
  | None => set_images_ready (after_remove cam (images_ready w)) w
  end.


Definition written_item (w : World) (item : string * string) : World :=
  written item.1 (_camera_id_from_path item.1) (status_token item.2) w.

End ClosedForms.

(** A world with two source images, a stray file and two stale artifacts of
    the first camera. *)
Definition demo_world : World :=
  mkWorld ∅
    [("CAM_1.jpg", "image 1"); ("CAM_2.png", "image 2"); ("notes.txt", "notes")]
    [("CAM_1_NO.jpg", "old image"); ("CAM_1_yes.PNG", "older image")]
    0.

(** Unfolding of the monad operations. *)
Ltac io_unfold :=
  unfold mbind, mret, io_mbind, io_mret, io_bind, io_ret, get_world, modify_world, raise in *.

(** ** Definitions used in the further properties *)

(** The lines [append_messages] writes for a list of messages. *)
Definition lines_of (messages : list string) : string :=
  fold_right (fun message rest => (rstrip_nl message +:+ String LF "") +:+ rest) "" messages.

(** A message that comes back from a feed as it went in: not empty, no
    whitespace at either end, no line terminator inside. *)
Definition clean_message (m : string) : Prop :=
  strip m = m /\ m <> "" /\ all_chars is_text_char m = true.

(** The error of [_feed_path] *)
Definition blank_name_error : exn := ValueError "feed_name must be non-empty".

(** Every counter is below the threshold. *)
Definition counts_bounded (counts : gmap string nat) : Prop :=
  forall cam, count_of counts cam < INACTIVITY_THRESHOLD.

(** An entry of [images_ready] that was there in [w0], or that holds the
    content of a source image of [w0] under the name of a status artifact of
    the camera of that image. *)
Definition entry_from (w0 : World) (entry : string * string) : Prop :=
  entry ∈ images_ready w0 \/
  exists path status,
    read_source path w0 = Some entry.2 /\ is_verdict status /\
    entry.1 = artifact_name (_camera_id_from_path path) status.

(** The camera for which a force-update request is served, if it is. *)
Definition served_camera (w : World) (req : string) : option string :=
  let cam_id := strip (slice_from (String.length "FORCE_UPDATE_") req) in
  if startswith "FORCE_UPDATE_" req && startswith "CAM_" cam_id then
    match find_source cam_id w with
    | Some _ => Some cam_id
    | None => None
    end
  else None.

(** The lines [UPDATED_<camera_id>] for a list of cameras. *)
Definition acknowledgements (cams : list string) : string :=
  fold_right (fun cam rest => ("UPDATED_" +:+ cam +:+ String LF "") +:+ rest) "" cams.

(** [demo_world] with four pending force-update requests. *)
Definition demo_requests : World :=
  set_feed_files
    {[ feed_file ImageServer.FORCE_REQUEST_FEED :=
         lines_of ["FORCE_UPDATE_CAM_2"; "FORCE_UPDATE_CAM_7"; "hello"; "FORCE_UPDATE_CAM_2"] ]}
    demo_world.

(** The step of the fold in [discover_cameras]. *)
Definition camera_step (cameras : dict (string * string)) (filename : string)
  : dict (string * string) :=
  match UI._parse_ready_filename filename with
  | Some (camera_id, status) =>
      dict_set camera_id (path_join UI.IMAGE_DIR filename, status) cameras
  | None => cameras
  end.

(** * Properties *)

(** ** Facts on Python strings *)

Section StringFacts.

Lemma sapp_cons c (s t : string) : String c s +:+ t = String c (s +:+ t).
Proof. reflexivity. Qed.

Lemma sapp_nil_l (s : string) : "" +:+ s = s.
Proof. reflexivity. Qed.

Lemma sapp_nil_r (s : string) : s +:+ "" = s.
Proof. induction s as [|c s IH]; [done|]. by rewrite sapp_cons, IH. Qed.

Lemma sapp_assoc (s t u : string) : (s +:+ t) +:+ u = s +:+ (t +:+ u).
Proof. induction s as [|c s IH]; [done|]. by rewrite !sapp_cons, IH. Qed.

Lemma sapp_length (s t : string) :
  String.length (s +:+ t) = String.length s + String.length t.
Proof. induction s as [|c s IH]; [done|]. rewrite sapp_cons. simpl. by rewrite IH. Qed.

Lemma sapp_inv_tail (s1 s2 t : string) : s1 +:+ t = s2 +:+ t -> s1 = s2.
Proof.
  revert s2. induction s1 as [|c s1 IH]; intros [|c2 s2] H; try done.
  - apply (f_equal String.length) in H. rewrite sapp_nil_l, sapp_cons in H.
    simpl in H. rewrite sapp_length in H. lia.
  - apply (f_equal String.length) in H. rewrite sapp_nil_l, sapp_cons in H.
    simpl in H. rewrite sapp_length in H. lia.
  - rewrite !sapp_cons in H. injection H as -> H. f_equal. by apply IH.
Qed.

Lemma truthy_true (s : string) : truthy s = true <-> s <> "".
Proof.
  unfold truthy. destruct (String.eqb_spec s ""); simpl; split; intros; done.
Qed.

(** *** strip *)

Lemma rstrip_snoc_space s x :
  is_space x = true -> rstrip (s +:+ String x "") = rstrip s.
Proof.
  intros Hx. induction s as [|c s IH].
  - rewrite sapp_nil_l. simpl. by rewrite Hx.
  - rewrite sapp_cons. simpl. by rewrite IH.
Qed.

Lemma strip_snoc_space s x :
  is_space x = true -> strip (s +:+ String x "") = strip s.
Proof. intros Hx. unfold strip. by rewrite rstrip_snoc_space. Qed.

(** The last character of a right-stripped string is not a space. *)
Lemma rstrip_idemp s : rstrip (rstrip s) = rstrip s.
Proof.
  induction s as [|c s IH]; [done|]. simpl.
  destruct (rstrip s) as [|c' r] eqn:E.
  - destruct (is_space c) eqn:Hc; [done|]. simpl. by rewrite Hc.
  - simpl. simpl in IH. by rewrite IH.
Qed.

Lemma rstrip_lstrip s : rstrip (lstrip s) = lstrip (rstrip s).
Proof.
  induction s as [|c s IH]; [done|]. simpl.
  destruct (is_space c) eqn:Hc.
  - rewrite IH. destruct (rstrip s) as [|c' r] eqn:E; simpl; by rewrite ?Hc.
  - destruct (rstrip s) as [|c' r] eqn:E; simpl; by rewrite ?Hc, ?E.
Qed.

Lemma lstrip_idemp s : lstrip (lstrip s) = lstrip s.
Proof.
  induction s as [|c s IH]; [done|]. simpl.
  destruct (is_space c) eqn:Hc; [done|]. simpl. by rewrite Hc.
Qed.

Lemma strip_idemp s : strip (strip s) = strip s.
Proof.
  unfold strip. by rewrite rstrip_lstrip, rstrip_idemp, lstrip_idemp.
Qed.

Lemma lstrip_length s : String.length (lstrip s) <= String.length s.
Proof.
  induction s as [|c s IH]; [done|]. simpl. destruct (is_space c); simpl; lia.
Qed.

Lemma rstrip_length s : String.length (rstrip s) <= String.length s.
Proof.
  induction s as [|c s IH]; [done|]. simpl.
  destruct (rstrip s); [destruct (is_space c)|]; simpl in *; lia.
Qed.

Lemma rstrip_fixed_strip s : strip s = s -> rstrip s = s.
Proof.
  intros H. rewrite <- H at 1. unfold strip.
  rewrite rstrip_lstrip, rstrip_idemp. exact H.
Qed.

(** A string that [strip] leaves alone starts and ends with a character
    that is not whitespace. *)
Lemma strip_fixed_first s c rest :
  strip s = s -> s = String c rest -> is_space c = false.
Proof.
  intros Hs ->. pose proof (rstrip_fixed_strip _ Hs) as Hr.
  unfold strip in Hs. rewrite Hr in Hs. simpl in Hs.
  destruct (is_space c); [|done].
  pose proof (lstrip_length rest) as Hlen. rewrite Hs in Hlen. simpl in Hlen. lia.
Qed.

Lemma strip_fixed_last s rest c :
  strip s = s -> s = rest +:+ String c "" -> is_space c = false.
Proof.
  intros Hs ->. pose proof (rstrip_fixed_strip _ Hs) as Hr.
  destruct (is_space c) eqn:Hc; [|done].
  rewrite rstrip_snoc_space in Hr by done.
  pose proof (rstrip_length rest) as Hlen. rewrite Hr, sapp_length in Hlen.
  simpl in Hlen. lia.
Qed.

End StringFacts.

(** ** Loops in the [io] monad *)

Lemma for_each_cons {A} (x : A) (l : list A) (body : A -> io unit) w :
  for_each (x :: l) body w
  = match body x w with
    | inl e => inl e
    | inr (_, w') => for_each l body w'
    end.
Proof. reflexivity. Qed.

Lemma for_fold_cons {A S} (x : A) (l : list A) (body : A -> S -> io S) s w :
  for_fold (x :: l) body s w
  = match body x s w with
    | inl e => inl e
    | inr (s', w') => for_fold l body s' w'
    end.
Proof. reflexivity. Qed.


(** ** The lines of a feed file *)

Lemma lines_messages_cons l ls :
  lines_messages (l :: ls) = emit l ++ lines_messages ls.
Proof.
  unfold lines_messages, emit. rewrite filter_cons.
  destruct (decide _) as [H|H].
  - by rewrite H.
  - apply not_true_is_false in H. by rewrite H.
Qed.

Lemma emit_snoc_space cur x : is_space x = true -> emit (cur +:+ String x "") = emit cur.
Proof. intros H. unfold emit. by rewrite strip_snoc_space. Qed.

Lemma lines_messages_prepend_nil ls : lines_messages (prepend "" ls) = lines_messages ls.
Proof. destruct ls; done. Qed.

Lemma readlines_cons_other c t :
  Ascii.eqb c LF = false -> readlines (String c t) = prepend (String c "") (readlines t).
Proof. intros H. simpl. rewrite H. by destruct (readlines t). Qed.

Lemma prepend_prepend a b ls : prepend a (prepend b ls) = prepend (a +:+ b) ls.
Proof. destruct ls; simpl; by rewrite ?sapp_assoc. Qed.

Lemma un_LF s : universal_newlines (String LF s) = String LF (universal_newlines s).
Proof. reflexivity. Qed.

Lemma un_CR_LF s : universal_newlines (String CR (String LF s)) = String LF (universal_newlines s).
Proof. reflexivity. Qed.

Lemma un_CR_nil : universal_newlines (String CR "") = String LF "".
Proof. reflexivity. Qed.

Lemma un_CR_other c s :
  c <> LF ->
  universal_newlines (String CR (String c s)) = String LF (universal_newlines (String c s)).
Proof.
  intros H. change (universal_newlines (String CR (String c s)))
    with (if Ascii.eqb c LF then universal_newlines (String c s)
          else String LF (universal_newlines (String c s))).
  by destruct (Ascii.eqb_spec c LF).
Qed.

Lemma un_other c s :
  c <> CR -> universal_newlines (String c s) = String c (universal_newlines s).
Proof. intros H. simpl. by destruct (Ascii.eqb_spec c CR). Qed.

Lemma lines_prepend_LF cur t :
  lines_messages (prepend cur (readlines (String LF t)))
  = emit cur ++ lines_messages (prepend "" (readlines t)).
Proof.
  simpl. rewrite lines_messages_cons, emit_snoc_space by done.
  by rewrite lines_messages_prepend_nil.
Qed.

Lemma scan_lines cur s :
  lines_messages (prepend cur (readlines (universal_newlines s))) = scan cur s.
Proof.
  revert cur. induction s as [|c s IH]; intros cur.
  - simpl. rewrite lines_messages_cons. unfold lines_messages. simpl. by rewrite app_nil_r.
  - destruct (Ascii.eqb_spec c CR) as [->|Hcr].
    + destruct s as [|c' s'].
      * rewrite un_CR_nil, lines_prepend_LF. done.
      * destruct (Ascii.eqb_spec c' LF) as [->|Hlf].
        -- rewrite un_CR_LF, lines_prepend_LF.
           specialize (IH ""). rewrite un_LF, lines_prepend_LF in IH.
           change (scan cur (String CR (String LF s')))
             with (emit cur ++ scan "" (String LF s')).
           rewrite <- IH. done.
        -- rewrite un_CR_other, lines_prepend_LF, IH by done. done.
    + destruct (Ascii.eqb_spec c LF) as [->|Hlf].
      * rewrite un_LF, lines_prepend_LF, IH. done.
      * rewrite un_other by done.
        rewrite readlines_cons_other by (by destruct (Ascii.eqb_spec c LF)).
        rewrite prepend_prepend, IH. simpl. unfold is_eol.
        by destruct (Ascii.eqb_spec c LF), (Ascii.eqb_spec c CR).
Qed.

Lemma stripped_lines_scan text : stripped_lines text = scan "" text.
Proof.
  unfold stripped_lines. rewrite <- scan_lines.
  by rewrite lines_messages_prepend_nil.
Qed.

(** ** The feed store *)

Lemma scan_app_LF cur a b :
  scan cur (a +:+ String LF b) = scan cur (a +:+ String LF "") ++ scan "" b.
Proof.
  revert cur. induction a as [|c a IH]; intros cur.
  - rewrite !sapp_nil_l. simpl. by rewrite app_nil_r.
  - rewrite !sapp_cons. simpl. destruct (is_eol c).
    + by rewrite IH, app_assoc.
    + apply IH.
Qed.

Lemma scan_app_terminated a b :
  terminated a -> scan "" (a +:+ b) = scan "" a ++ scan "" b.
Proof.
  intros [->|[t ->]]; [done|].
  rewrite sapp_assoc, sapp_cons, sapp_nil_l. apply scan_app_LF.
Qed.

Lemma scan_line cur m :
  all_chars is_text_char m = true ->
  scan cur (m +:+ String LF "") = emit (cur +:+ m).
Proof.
  revert cur. induction m as [|c m IH]; intros cur H.
  - rewrite sapp_nil_l, sapp_nil_r. simpl. by rewrite app_nil_r.
  - simpl in H. apply andb_true_iff in H as [Hc Hm].
    rewrite sapp_cons. simpl. unfold is_text_char in Hc.
    destruct (is_eol c); [done|].
    rewrite IH by done. by rewrite sapp_assoc.
Qed.

Lemma scan_snoc_space cur s x :
  is_space x = true -> scan cur (s +:+ String x "") = scan cur s.
Proof.
  intros Hx. revert cur. induction s as [|c s IH]; intros cur.
  - rewrite sapp_nil_l. simpl. destruct (is_eol x).
    + simpl. by rewrite app_nil_r.
    + by apply emit_snoc_space.
  - rewrite sapp_cons. simpl. destruct (is_eol c); by rewrite IH.
Qed.

Lemma scan_app_spaces cur s ws :
  all_chars is_space ws = true -> scan cur (s +:+ ws) = scan cur s.
Proof.
  revert s. induction ws as [|x ws IH]; intros s H.
  - by rewrite sapp_nil_r.
  - simpl in H. apply andb_true_iff in H as [Hx Hws].
    change (String x ws) with (String x "" +:+ ws).
    rewrite <- sapp_assoc, IH by done. by apply scan_snoc_space.
Qed.

Lemma emit_stripped cur m : m ∈ emit cur -> strip m = m /\ m <> "".
Proof.
  unfold emit. destruct (truthy (strip cur)) eqn:E.
  - intros ->%list_elem_of_singleton. split; [apply strip_idemp|].
    by apply truthy_true.
  - by intros ?%elem_of_nil.
Qed.

Lemma scan_stripped cur s m : m ∈ scan cur s -> strip m = m /\ m <> "".
Proof.
  revert cur. induction s as [|c s IH]; intros cur; simpl.
  - apply emit_stripped.
  - destruct (is_eol c).
    + intros [H|H]%elem_of_app; [by eapply emit_stripped | by eapply IH].
    + apply IH.
Qed.

Lemma rstrip_nl_text m : all_chars is_text_char m = true -> rstrip_nl m = m.
Proof.
  induction m as [|c m IH]; [done|]. simpl. intros [Hc Hm]%andb_true_iff.
  rewrite IH by done. destruct m; [|done].
  unfold is_text_char, is_eol in Hc. by destruct (Ascii.eqb c LF).
Qed.

Lemma rstrip_nl_spaces s : all_chars is_space s = true -> all_chars is_space (rstrip_nl s) = true.
Proof.
  induction s as [|c s IH]; [done|]. simpl. intros [Hc Hs]%andb_true_iff.
  specialize (IH Hs). destruct (rstrip_nl s) eqn:E.
  - destruct (Ascii.eqb c LF); [done|]. simpl. by rewrite Hc.
  - change (all_chars is_space (String c (String a s0)))
      with (is_space c && all_chars is_space (String a s0)).
    by rewrite Hc, IH.
Qed.

Lemma strip_spaces s : all_chars is_space s = true -> strip s = "".
Proof.
  intros H. unfold strip.
  assert (rstrip s = "") as ->; [|done].
  induction s as [|c s IH]; [done|]. simpl in *.
  apply andb_true_iff in H as [Hc Hs]. by rewrite IH, Hc.
Qed.

Lemma feed_path_run feed w :
  strip feed <> "" -> _feed_path feed w = inr (feed_file feed, w).
Proof.
  intros H%truthy_true. unfold _feed_path. by rewrite H.
Qed.

Lemma peek_run feed w :
  strip feed <> "" ->
  peek_messages feed w
  = inr (match feed_files w !! feed_file feed with
         | Some text => stripped_lines text
         | None => []
         end, w).
Proof.
  intros H. unfold peek_messages. io_unfold. rewrite feed_path_run by done.
  by destruct (feed_files w !! feed_file feed).
Qed.

Lemma consume_run feed w :
  strip feed <> "" ->
  consume_messages feed w
  = inr (match feed_files w !! feed_file feed with
         | Some text => stripped_lines text
         | None => []
         end,
         match feed_files w !! feed_file feed with
         | Some _ => set_feed_files (<[feed_file feed := ""]> (feed_files w)) w
         | None => w
         end).
Proof.
  intros H. unfold consume_messages. io_unfold. rewrite feed_path_run by done.
  by destruct (feed_files w !! feed_file feed).
Qed.

Lemma append_run feed m w :
  strip feed <> "" ->
  append_message feed m w
  = inr (tt, set_feed_files
               (<[feed_file feed :=
                    default "" (feed_files w !! feed_file feed)
                    +:+ (rstrip_nl m +:+ String LF "")]> (feed_files w)) w).
Proof.
  intros H. unfold append_message, write_append. io_unfold.
  by rewrite feed_path_run.
Qed.

Lemma peek_blank feed w r : strip feed = "" -> peek_messages feed w <> inr r.
Proof.
  intros H. unfold peek_messages, _feed_path. io_unfold.
  rewrite H. done.
Qed.

Lemma consume_blank feed w r : strip feed = "" -> consume_messages feed w <> inr r.
Proof.
  intros H. unfold consume_messages, _feed_path. io_unfold.
  rewrite H. done.
Qed.

(** C9. For a feed with a non-blank name and any stored contents, [peek]
    returns a sequence and leaves the world as it was, and [peek] followed
    by [drain] returns that same sequence twice. *)
Theorem peek_then_drain_same (feed : string) (w : World) :
  strip feed <> "" ->
  exists msgs w',
    peek_messages feed w = inr (msgs, w) /\
    (peeked ← peek_messages feed;
     drained ← consume_messages feed;
     mret (peeked, drained)) w = inr ((msgs, msgs), w').
Proof.
  intros H. io_unfold. rewrite peek_run, consume_run by done.
  eexists _, _. split; reflexivity.
Qed.

Lemma peek_then_drain_same_witness :
  exists msgs w',
    peek_messages "control"
      (mkWorld {[ "feeds/control.feed" := "SET_CAM_1_ON" +:+ String LF " x " ]} [] [] 0)
    = inr (msgs, mkWorld {[ "feeds/control.feed" := "SET_CAM_1_ON" +:+ String LF " x " ]} [] [] 0) /\
    (peeked ← peek_messages "control";
     drained ← consume_messages "control";
     mret (peeked, drained))
      (mkWorld {[ "feeds/control.feed" := "SET_CAM_1_ON" +:+ String LF " x " ]} [] [] 0)
    = inr ((msgs, msgs), w').
Proof. apply (peek_then_drain_same "control"). vm_compute. discriminate. Defined.

Lemma stripped_lines_stripped text m :
  m ∈ stripped_lines text -> strip m = m /\ m <> "".
Proof. rewrite stripped_lines_scan. apply scan_stripped. Qed.

Lemma returned_stripped feed w msgs w' m :
  peek_messages feed w = inr (msgs, w') \/ consume_messages feed w = inr (msgs, w') ->
  m ∈ msgs -> strip m = m /\ m <> "".
Proof.
  intros Hrun Hm. destruct (decide (strip feed = "")) as [Hb|Hb].
  { destruct Hrun as [H|H]; [by apply peek_blank in H | by apply consume_blank in H]. }
  rewrite peek_run, consume_run in Hrun by done.
  assert (msgs = match feed_files w !! feed_file feed with
                 | Some text => stripped_lines text
                 | None => []
                 end) as -> by (destruct Hrun as [H|H]; congruence).
  destruct (feed_files w !! feed_file feed).
  - by eapply stripped_lines_stripped.
  - by apply elem_of_nil in Hm.
Qed.

(** Appending a message made of whitespace leaves the pending messages of
    the feed as they were. *)
Lemma append_blank_pending feed ws w w1 :
  all_chars is_space ws = true ->
  append_message feed ws w = inr (tt, w1) ->
  exists msgs, peek_messages feed w = inr (msgs, w) /\ peek_messages feed w1 = inr (msgs, w1).
Proof.
  intros Hws Happ. destruct (decide (strip feed = "")) as [Hb|Hb].
  { exfalso. revert Happ. unfold append_message, _feed_path. io_unfold. by rewrite Hb. }
  rewrite append_run in Happ by done. injection Happ as <-.
  rewrite !peek_run by done. eexists. split; [reflexivity|].
  f_equal. f_equal. simpl. rewrite lookup_insert_eq.
  rewrite stripped_lines_scan, scan_app_spaces.
  - destruct (feed_files w !! feed_file feed); [|done].
    by rewrite stripped_lines_scan.
  - clear -Hws. apply rstrip_nl_spaces in Hws.
    induction (rstrip_nl ws) as [|c s IH]; [done|].
    rewrite sapp_cons. simpl in *. apply andb_true_iff in Hws as [-> Hs]. by apply IH.
Qed.

(** C10. Every message that [drain] or [peek] returns is left alone by
    [strip]: it is not empty and neither its first nor its last character is
    whitespace of any kind.  Hence no message made of whitespace only is
    ever returned, whatever was appended before. *)
Theorem returned_messages_stripped (feed : string) (w w' : World) (msgs : list string) :
  peek_messages feed w = inr (msgs, w') \/ consume_messages feed w = inr (msgs, w') ->
  Forall (fun m => strip m = m /\ m <> "" /\
                   (forall c rest, m = String c rest -> is_space c = false) /\
                   (forall rest c, m = rest +:+ String c "" -> is_space c = false)) msgs /\
  forall ws, all_chars is_space ws = true -> ws ∉ msgs.
Proof.
  intros Hrun. split.
  - apply Forall_forall. intros m Hm.
    destruct (returned_stripped _ _ _ _ _ Hrun Hm) as [Hs Hne].
    split; [done|]. split; [done|]. split.
    + intros c rest. by apply strip_fixed_first.
    + intros rest c. by apply strip_fixed_last.
  - intros ws Hws Hin. destruct (returned_stripped _ _ _ _ _ Hrun Hin) as [Hs Hne].
    rewrite strip_spaces in Hs by done. congruence.
Qed.

Lemma returned_messages_stripped_witness :
  Forall (fun m => strip m = m /\ m <> "" /\
                   (forall c rest, m = String c rest -> is_space c = false) /\
                   (forall rest c, m = rest +:+ String c "" -> is_space c = false))
         ["a b"; "c"] /\
  forall ws, all_chars is_space ws = true -> ws ∉ ["a b"; "c"].
Proof.
  apply (returned_messages_stripped "POWER"
           (mkWorld {[ "feeds/POWER.feed" :=
                         "  a b " +:+ String LF ("   " +:+ String CR (String LF ("c" +:+ String LF ""))) ]}
                    [] [] 0)
           (mkWorld {[ "feeds/POWER.feed" := "" ]} [] [] 0)).
  right. vm_compute. reflexivity.
Defined.

Lemma terminated_snoc_line text m :
  terminated (text +:+ (m +:+ String LF "")).
Proof. right. exists (text +:+ m). by rewrite sapp_assoc. Qed.

Lemma feeds_terminated_empty : feeds_terminated empty_world.
Proof. intros path text. simpl. by rewrite lookup_empty. Qed.

Lemma append_message_terminated feed m w w1 :
  feeds_terminated w -> append_message feed m w = inr (tt, w1) -> feeds_terminated w1.
Proof.
  intros Hw Happ. destruct (decide (strip feed = "")) as [Hb|Hb].
  { exfalso. revert Happ. unfold append_message, _feed_path. io_unfold. by rewrite Hb. }
  rewrite append_run in Happ by done. injection Happ as <-.
  intros path text. simpl. destruct (decide (feed_file feed = path)) as [<-|Hne].
  - rewrite lookup_insert_eq. intros [= <-]. apply terminated_snoc_line.
  - rewrite lookup_insert_ne by done. apply Hw.
Qed.

Lemma consume_messages_terminated feed w msgs w1 :
  feeds_terminated w -> consume_messages feed w = inr (msgs, w1) -> feeds_terminated w1.
Proof.
  intros Hw Hrun. destruct (decide (strip feed = "")) as [Hb|Hb].
  { by apply consume_blank in Hrun. }
  rewrite consume_run in Hrun by done. injection Hrun as _ <-.
  destruct (feed_files w !! feed_file feed); [|done].
  intros path text. simpl. destruct (decide (feed_file feed = path)) as [<-|Hne].
  - rewrite lookup_insert_eq. intros [= <-]. by left.
  - rewrite lookup_insert_ne by done. apply Hw.
Qed.

Lemma clear_feed_terminated feed w w1 :
  feeds_terminated w -> clear_feed feed w = inr (tt, w1) -> feeds_terminated w1.
Proof.
  intros Hw. unfold clear_feed. io_unfold.
  destruct (_feed_path feed w) as [e|[path w0]] eqn:E; [done|].
  assert (w0 = w) as ->.
  { revert E. unfold _feed_path. io_unfold. destruct (negb _); congruence. }
  destruct (feed_files w !! path) eqn:El; intros [= <-]; [|done].
  intros p text. simpl. destruct (decide (path = p)) as [<-|Hne].
  - rewrite lookup_insert_eq. intros [= <-]. by left.
  - rewrite lookup_insert_ne by done. apply Hw.
Qed.

(** [append_messages] writes the lines of its messages, in order, at the end
    of the file, which it creates when missing. *)
Lemma write_lines_run path (messages : list string) old w :
  feed_files w !! path = Some old ->
  for_each messages (fun message => write_append path (rstrip_nl message +:+ String LF "")) w
  = inr (tt, set_feed_files
               (<[path := old +:+ fold_right
                            (fun message rest => (rstrip_nl message +:+ String LF "") +:+ rest)
                            "" messages]> (feed_files w)) w).
Proof.
  revert old w. induction messages as [|m messages IH]; intros old w Hold.
  - simpl. rewrite sapp_nil_r, insert_id by done. by destruct w.
  - rewrite for_each_cons. unfold write_append at 1. io_unfold. rewrite Hold. simpl default.
    erewrite IH by apply lookup_insert_eq. simpl fold_right.
    unfold set_feed_files. simpl. by rewrite insert_insert_eq, !sapp_assoc.
Qed.

Lemma append_messages_run feed messages w :
  strip feed <> "" ->
  append_messages feed messages w
  = inr (tt, set_feed_files
               (<[feed_file feed :=
                    default "" (feed_files w !! feed_file feed)
                    +:+ fold_right
                          (fun message rest => (rstrip_nl message +:+ String LF "") +:+ rest)
                          "" messages]> (feed_files w)) w).
Proof.
  intros Hb. unfold append_messages. io_unfold. rewrite feed_path_run by done.
  unfold write_append at 1. io_unfold.
  erewrite write_lines_run by apply lookup_insert_eq.
  unfold set_feed_files. simpl. by rewrite insert_insert_eq, sapp_nil_r.
Qed.

Lemma terminated_lines old (messages : list string) :
  terminated old ->
  terminated (old +:+ fold_right
                        (fun message rest => (rstrip_nl message +:+ String LF "") +:+ rest)
                        "" messages).
Proof.
  revert old. induction messages as [|m messages IH]; intros old Hold.
  - by rewrite sapp_nil_r.
  - simpl fold_right. rewrite <- sapp_assoc. apply IH, terminated_snoc_line.
Qed.

Lemma append_messages_terminated feed messages w w1 :
  feeds_terminated w -> append_messages feed messages w = inr (tt, w1) -> feeds_terminated w1.
Proof.
  intros Hw Happ. destruct (decide (strip feed = "")) as [Hb|Hb].
  { exfalso. revert Happ. unfold append_messages, _feed_path. io_unfold. by rewrite Hb. }
  rewrite append_messages_run in Happ by done. injection Happ as <-.
  intros path text. simpl. destruct (decide (feed_file feed = path)) as [<-|Hne].
  - rewrite lookup_insert_eq. intros [= <-]. apply terminated_lines.
    destruct (feed_files w !! feed_file feed) eqn:E; [by eapply Hw|by left].
  - rewrite lookup_insert_ne by done. apply Hw.
Qed.

Lemma stripped_lines_line text m :
  terminated text -> strip m = m -> m <> "" -> all_chars is_text_char m = true ->
  stripped_lines (text +:+ (rstrip_nl m +:+ String LF "")) = stripped_lines text ++ [m].
Proof.
  intros Ht Hs Hne Hm. rewrite !stripped_lines_scan, scan_app_terminated by done.
  rewrite rstrip_nl_text, scan_line by done. rewrite sapp_nil_l.
  unfold emit. rewrite Hs. apply truthy_true in Hne. by rewrite Hne.
Qed.




(** ** The control protocol *)


Lemma write_to_power_feed_run msg w :
  write_to_power_feed msg w = inr (tt, power_append msg w).
Proof. unfold write_to_power_feed. by rewrite append_run. Qed.

Lemma rsplit1_app sep a b :
  contains sep b = false -> rsplit1 sep (a +:+ String sep b) = Some (a, b).
Proof.
  intros Hb. assert (Hnone : rsplit1 sep b = None).
  { induction b as [|c b IH]; [done|]. simpl in *.
    apply orb_false_iff in Hb as [Hc Hb]. by rewrite IH, Hc. }
  induction a as [|c a IH].
  - rewrite sapp_nil_l. simpl. by rewrite Hnone, Ascii.eqb_refl.
  - rewrite sapp_cons. simpl. by rewrite IH.
Qed.

Lemma handle_command_total command w : exists w', handle_command command w = inr (tt, w').
Proof.
  unfold handle_command. destruct (negb _); [by eexists|].
  destruct (rsplit1 _ _) as [[target state]|]; [|by eexists].
  destruct (negb _); [by eexists|]. rewrite write_to_power_feed_run. by eexists.
Qed.

Lemma for_each_total {A} (l : list A) (body : A -> io unit) w :
  (forall x w, exists w', body x w = inr (tt, w')) ->
  exists w', for_each l body w = inr (tt, w').
Proof.
  intros Hbody. revert w. induction l as [|x l IH]; intros w; simpl.
  - by eexists.
  - io_unfold. destruct (Hbody x w) as [w1 ->]. apply IH.
Qed.

(** C1 (as amended). [read_control_feed] never raises and handles the
    drained messages one by one.  A message with the prefix [SET_CAM_],
    read as [SET_<target>_<state>] with [state] the text after the last
    underscore, whose [state] in upper case is [ON] or [OFF], makes exactly
    one append to the power feed, of [<target>_<STATE>]; a message without
    the prefix [SET_CAM_], or whose [state] in upper case is neither, leaves
    the world as it is. *)
Theorem control_feed_forwarding (w w0 : World) (commands : list string) :
  consume_messages CONTROL_FEED w = inr (commands, w0) ->
  (exists w', read_control_feed w = inr (tt, w') /\
              for_each commands handle_command w0 = inr (tt, w')) /\
  forall command, command ∈ commands -> forall w1,
    (forall target state,
        command = "SET_" +:+ target +:+ "_" +:+ state ->
        contains "_"%char state = false ->
        startswith "SET_CAM_" command = true ->
        in_set (upper state) ["ON"; "OFF"] = true ->
        handle_command command w1
        = append_message POWER_FEED (target +:+ "_" +:+ upper state) w1) /\
    (startswith "SET_CAM_" command = false -> handle_command command w1 = inr (tt, w1)) /\
    (forall target state,
        command = "SET_" +:+ target +:+ "_" +:+ state ->
        contains "_"%char state = false ->
        in_set (upper state) ["ON"; "OFF"] = false ->
        handle_command command w1 = inr (tt, w1)).
Proof.
  intros Hdrain. split.
  - unfold read_control_feed. io_unfold. rewrite Hdrain.
    destruct (for_each_total commands handle_command w0) as [w' Hw'].
    { intros. apply handle_command_total. }
    by exists w'.
  - intros command Hin w1.
    assert (Hs : strip command = command).
    { eapply returned_stripped; [right; exact Hdrain | done]. }
    unfold handle_command. rewrite Hs. repeat split.
    + intros target state -> Hst Hpre Hup. rewrite Hpre. simpl negb. cbv iota.
      change (slice_from _ _) with (target +:+ String "_"%char state).
      by rewrite rsplit1_app, Hup.
    + by intros ->.
    + intros target state -> Hst Hup. destruct (negb _); [done|].
      change (slice_from _ _) with (target +:+ String "_"%char state).
      by rewrite rsplit1_app, Hup.
Qed.

Lemma control_feed_forwarding_witness :
  handle_command "SET_CAM_front_door_on" empty_world
  = append_message POWER_FEED "CAM_front_door_ON" empty_world /\
  handle_command "TURN_ON_CAM_X" empty_world = inr (tt, empty_world) /\
  handle_command "SET_CAM_1_UP" empty_world = inr (tt, empty_world).
Proof.
  pose proof (control_feed_forwarding
    (mkWorld {[ "feeds/control.feed" :=
                  "SET_CAM_front_door_on" +:+ String LF
                    ("TURN_ON_CAM_X" +:+ String LF ("SET_CAM_1_UP" +:+ String LF "")) ]} [] [] 0)
    (mkWorld {[ "feeds/control.feed" := "" ]} [] [] 0)
    ["SET_CAM_front_door_on"; "TURN_ON_CAM_X"; "SET_CAM_1_UP"]) as H.
  destruct H as [_ H]; [vm_compute; reflexivity|].
  split; [|split].
  - destruct (H "SET_CAM_front_door_on") with (w1 := empty_world) as (H1 & _ & _).
    { apply list_elem_of_here. }
    apply (H1 "CAM_front_door" "on"); reflexivity.
  - destruct (H "TURN_ON_CAM_X") with (w1 := empty_world) as (_ & H2 & _).
    { apply list_elem_of_further, list_elem_of_here. }
    apply H2. reflexivity.
  - destruct (H "SET_CAM_1_UP") with (w1 := empty_world) as (_ & _ & H3).
    { do 2 apply list_elem_of_further. apply list_elem_of_here. }
    apply (H3 "CAM_1" "UP"); reflexivity.
Defined.

(** C1 as stated fails: [SET_LAMP_ON] has the prefix [SET_] and the
    trailing token [ON], yet nothing reaches the power feed. *)
Lemma control_set_prefix_counterexample :
  startswith "SET_" "SET_LAMP_ON" = true /\
  rsplit1 "_"%char "SET_LAMP_ON" = Some ("SET_LAMP", "ON") /\
  read_control_feed
    (mkWorld {[ "feeds/control.feed" := "SET_LAMP_ON" +:+ String LF "" ]} [] [] 0)
  = inr (tt, mkWorld {[ "feeds/control.feed" := "" ]} [] [] 0) /\
  peek_messages POWER_FEED (mkWorld {[ "feeds/control.feed" := "" ]} [] [] 0)
  = inr ([], mkWorld {[ "feeds/control.feed" := "" ]} [] [] 0).
Proof. repeat split; vm_compute; reflexivity. Qed.

(** ** The inactivity monitor *)

Lemma for_each_app {A} (l1 l2 : list A) (body : A -> io unit) w w1 w2 :
  for_each l1 body w = inr (tt, w1) ->
  for_each l2 body w1 = inr (tt, w2) ->
  for_each (l1 ++ l2) body w = inr (tt, w2).
Proof.
  revert w. induction l1 as [|x l1 IH]; intros w; simpl; io_unfold.
  - by intros [= <-].
  - destruct (body x w) as [e|[[] w']]; [done|]. apply IH.
Qed.

Lemma count_of_insert counts cam n : count_of (<[cam := n]> counts) cam = n.
Proof. unfold count_of. by rewrite lookup_insert_eq. Qed.

Lemma count_of_insert_ne counts cam k n :
  k <> cam -> count_of (<[k := n]> counts) cam = count_of counts cam.
Proof. intros H. unfold count_of. by rewrite lookup_insert_ne. Qed.

(** What one observation does, in closed form. *)
Lemma observe_status_run k s counts w :
  observe_status (k, s) counts w
  = let n := if String.eqb s "NO" then count_of counts k + 1 else 0 in
    if INACTIVITY_THRESHOLD <=? n
    then inr (<[k := 0]> (<[k := n]> counts), power_append (k +:+ "_OFF") w)
    else inr (<[k := n]> counts, w).
Proof.
  unfold observe_status. cbv zeta. destruct (String.eqb s "NO");
    rewrite count_of_insert; destruct (_ <=? _); io_unfold;
    by rewrite ?write_to_power_feed_run.
Qed.

Lemma off_message_inj k cam : k +:+ "_OFF" = cam +:+ "_OFF" -> k = cam.
Proof. apply sapp_inv_tail. Qed.

(** One observation: what it leaves for its own camera and for the others. *)
Lemma observe_status_cases k s counts w :
  exists counts1 w1 out,
    observe_status (k, s) counts w = inr (counts1, w1) /\
    for_each out write_to_power_feed w = inr (tt, w1) /\
    (forall cam, k <> cam ->
       count_of counts1 cam = count_of counts cam /\ cam +:+ "_OFF" ∉ out) /\
    (let n := if String.eqb s "NO" then count_of counts k + 1 else 0 in
     if INACTIVITY_THRESHOLD <=? n
     then count_of counts1 k = 0 /\ out = [k +:+ "_OFF"]
     else count_of counts1 k = n /\ out = []).
Proof.
  rewrite observe_status_run. cbv zeta.
  destruct (INACTIVITY_THRESHOLD <=? _) eqn:Hfired.
  - eexists _, _, [k +:+ "_OFF"]. split; [reflexivity|]. split.
    { simpl. io_unfold. by rewrite write_to_power_feed_run. }
    split; [|by rewrite count_of_insert].
    intros cam Hne. rewrite !count_of_insert_ne by done. split; [done|].
    intros Hin%list_elem_of_singleton%off_message_inj. congruence.
  - eexists _, _, []. split; [reflexivity|]. split; [done|].
    split; [|by rewrite count_of_insert].
    intros cam Hne. rewrite count_of_insert_ne by done. split; [done|].
    apply not_elem_of_nil.
Qed.

(** One pass over a listing, seen from one camera. *)
Lemma inactivity_pass_camera cam statuses counts w :
  NoDup statuses.*1 ->
  exists counts' w' msgs,
    inactivity_pass statuses counts w = inr (counts', w') /\
    for_each msgs write_to_power_feed w = inr (tt, w') /\
    (cam ∉ statuses.*1 ->
       count_of counts' cam = count_of counts cam /\ cam +:+ "_OFF" ∉ msgs) /\
    (forall s, (cam, s) ∈ statuses ->
       let n := if String.eqb s "NO" then count_of counts cam + 1 else 0 in
       if INACTIVITY_THRESHOLD <=? n
       then count_of counts' cam = 0 /\ count_occ string_dec msgs (cam +:+ "_OFF") = 1
       else count_of counts' cam = n /\ cam +:+ "_OFF" ∉ msgs).
Proof.
  unfold inactivity_pass. revert counts w.
  induction statuses as [|[k s] statuses IH]; intros counts w Hnd.
  - exists counts, w, []. repeat split; try done.
    + by intros ?%elem_of_nil.
    + by intros s ?%elem_of_nil.
  - rewrite fmap_cons in Hnd. apply NoDup_cons in Hnd as [Hk Hnd].
    change ((k, s).1) with k in Hk.
    destruct (observe_status_cases k s counts w)
      as (counts1 & w1 & out & Hstep & Hout1 & Hothers & Hself).
    rewrite for_fold_cons, Hstep.
    destruct (IH counts1 w1 Hnd) as (counts' & w' & msgs & Hrun & Hout & Hother & Hcam).
    exists counts', w', (out ++ msgs). split; [done|].
    split; [by eapply for_each_app|]. split.
    + rewrite fmap_cons. intros [Hne Hnin]%not_elem_of_cons.
      change ((k, s).1) with k in Hne.
      destruct (Hother Hnin) as [Hc Hm].
      destruct (Hothers cam (not_eq_sym Hne)) as [Hc1 Hm1].
      split; [congruence|]. by intros [?|?]%elem_of_app.
    + intros s' Hx. apply elem_of_cons in Hx as [Heq|Hin].
      * (* the item of the camera: the rest of the listing leaves it alone *)
        injection Heq as -> ->.
        destruct (Hother Hk) as [Hc Hm]. cbv zeta in Hself |- *.
        destruct (INACTIVITY_THRESHOLD <=? _); destruct Hself as [Hc1 ->].
        -- split; [congruence|]. rewrite count_occ_app. simpl.
           destruct (string_dec _ _); [|done].
           assert (count_occ string_dec msgs (k +:+ "_OFF") = 0) as ->; [|done].
           apply count_occ_not_In. by rewrite <- list_elem_of_In.
        -- split; [congruence|]. by rewrite app_nil_l.
      * assert (Hne : k <> cam).
        { intros ->. apply Hk. apply list_elem_of_fmap. by exists (cam, s'). }
        destruct (Hothers cam Hne) as [Hc1 Hm1].
        specialize (Hcam s' Hin). cbv zeta in Hcam |- *. rewrite Hc1 in Hcam.
        destruct (INACTIVITY_THRESHOLD <=? _); destruct Hcam as [Hc Hm].
        -- split; [done|]. rewrite count_occ_app.
           assert (count_occ string_dec out (cam +:+ "_OFF") = 0) as ->; [|done].
           apply count_occ_not_In. by rewrite <- list_elem_of_In.
        -- split; [done|]. by intros [?|?]%elem_of_app.
Qed.





(** ** Status artifacts *)

Lemma rsplit1_app_keep sep a b :
  contains sep b = false ->
  rsplit1 sep (a +:+ b)
  = match rsplit1 sep a with
    | Some (x, y) => Some (x, y +:+ b)
    | None => None
    end.
Proof.
  intros Hb. assert (Hnone : rsplit1 sep b = None).
  { induction b as [|c b IH]; [done|]. simpl in *.
    apply orb_false_iff in Hb as [Hc Hb]. by rewrite IH, Hc. }
  induction a as [|c a IH].
  - by rewrite sapp_nil_l, Hnone.
  - rewrite sapp_cons. simpl. rewrite IH. destruct (rsplit1 sep a) as [[x y]|]; [done|].
    destruct (Ascii.eqb c sep); [|done].
    (* the separator is the first character: the second part is [a +:+ b] *)
    done.
Qed.

Lemma rsplit1_inv sep s a b : rsplit1 sep s = Some (a, b) -> s = a +:+ String sep b.
Proof.
  revert a. induction s as [|c s IH]; intros a; [done|]. simpl.
  destruct (rsplit1 sep s) as [[x y]|].
  - intros [= <- <-]. rewrite sapp_cons. f_equal. by apply IH.
  - destruct (Ascii.eqb_spec c sep) as [->|]; [|done]. by intros [= <- <-].
Qed.

Lemma all_chars_app p a b : all_chars p (a +:+ b) = all_chars p a && all_chars p b.
Proof.
  induction a as [|c a IH]; [done|]. rewrite sapp_cons. simpl. by rewrite IH, andb_assoc.
Qed.

Lemma contains_app c a b : contains c (a +:+ b) = contains c a || contains c b.
Proof.
  induction a as [|x a IH]; [done|]. rewrite sapp_cons. simpl. by rewrite IH, orb_assoc.
Qed.

(** [splitext] on a name that ends in a dot and an extension without dot or
    separator, when the text before has something else than dots in its
    last component. *)
Lemma splitext_app stem ext :
  contains "."%char ext = false -> contains "/"%char ext = false ->
  all_chars (Ascii.eqb "."%char) (basename stem) = false ->
  splitext (stem +:+ String "."%char ext) = (stem, String "."%char ext).
Proof.
  intros Hdot Hsep Hstem. unfold splitext, basename in *.
  rewrite (rsplit1_app_keep "/"%char) by (simpl; by rewrite Hsep).
  destruct (rsplit1 "/"%char stem) as [[d b]|] eqn:E.
  - rewrite rsplit1_app, Hstem by done. f_equal.
    apply rsplit1_inv in E. rewrite E.
    change (String "/"%char b) with ("/" +:+ b). by rewrite sapp_assoc.
  - by rewrite rsplit1_app, Hstem.
Qed.

Lemma basename_app_keep a b :
  contains "/"%char b = false ->
  basename (a +:+ b) = basename a +:+ b.
Proof.
  intros Hb. unfold basename. rewrite rsplit1_app_keep by done.
  by destruct (rsplit1 "/"%char a) as [[x y]|].
Qed.

Lemma splitext_artifact cam status :
  is_verdict status ->
  splitext (artifact_name cam status) = (cam +:+ "_" +:+ status, ".jpg").
Proof.
  intros Hv. unfold artifact_name.
  rewrite <- !sapp_assoc. change (?s +:+ ".jpg") with (s +:+ String "."%char "jpg").
  apply splitext_app; [done..|].
  rewrite sapp_assoc, basename_app_keep by (destruct Hv as [-> | ->]; done).
  rewrite all_chars_app. destruct Hv as [-> | ->]; apply andb_false_r.
Qed.

Lemma parse_ready_artifact cam status :
  startswith "CAM_" cam = true -> is_verdict status ->
  _parse_ready_filename (artifact_name cam status) = Some (cam, status).
Proof.
  intros Hcam Hv. unfold _parse_ready_filename. rewrite splitext_artifact by done.
  simpl lower. simpl in_set. simpl negb. cbv iota.
  rewrite contains_app. replace (contains "_"%char ("_" +:+ status)) with true by done.
  rewrite orb_true_r. simpl negb. cbv iota.
  change ("_" +:+ status) with (String "_"%char status).
  rewrite rsplit1_app by (destruct Hv as [-> | ->]; done).
  rewrite Hcam. by destruct Hv as [-> | ->].
Qed.


(** The two parsers of artifact names agree. *)
Lemma parse_status_ready filename :
  ControlServer._parse_status_filename filename = _parse_ready_filename filename.
Proof.
  unfold ControlServer._parse_status_filename, _parse_ready_filename.
  destruct (splitext filename) as [stem ext]. destruct (negb _); [done|].
  destruct (negb _); [done|]. destruct (rsplit1 _ _) as [[base status]|]; [|done].
  by destruct (negb (startswith _ _)), (negb (in_set _ _)).
Qed.

(** *** Dictionaries and directories *)

Lemma dict_get_set {V} k (v : V) d : dict_get k (dict_set k v d) = Some v.
Proof.
  induction d as [|[k' v'] d IH]; simpl.
  - by rewrite String.eqb_refl.
  - destruct (String.eqb_spec k' k) as [->|Hne]; simpl.
    + by rewrite String.eqb_refl.
    + by destruct (String.eqb_spec k' k).
Qed.

Lemma dict_get_set_ne {V} k k' (v : V) d :
  k <> k' -> dict_get k' (dict_set k v d) = dict_get k' d.
Proof.
  intros Hne. induction d as [|[k0 v0] d IH]; simpl.
  - by destruct (String.eqb_spec k k').
  - destruct (String.eqb_spec k0 k) as [->|Hne0]; simpl.
    + by destruct (String.eqb_spec k k').
    + by rewrite IH.
Qed.

Lemma dict_set_keys {V} k (v : V) d :
  (dict_set k v d).*1 = if bool_decide (k ∈ d.*1) then d.*1 else d.*1 ++ [k].
Proof.
  induction d as [|[k' v'] d IH]; [done|].
  change (dict_set k v ((k', v') :: d))
    with (if String.eqb k' k then (k, v) :: d else (k', v') :: dict_set k v d).
  destruct (String.eqb_spec k' k) as [->|Hne]; rewrite !fmap_cons; cbn [fst].
  - rewrite bool_decide_eq_true_2; [done|]. apply list_elem_of_here.
  - rewrite IH. destruct (bool_decide_reflect (k ∈ d.*1)) as [Hin|Hnin].
    + rewrite bool_decide_eq_true_2; [done|]. by apply list_elem_of_further.
    + rewrite bool_decide_eq_false_2; [done|].
      intros [?|?]%elem_of_cons; congruence.
Qed.

Lemma dict_set_NoDup {V} k (v : V) d : NoDup d.*1 -> NoDup (dict_set k v d).*1.
Proof.
  intros Hnd. rewrite dict_set_keys. case_bool_decide as Hin; [done|].
  apply NoDup_app. split; [done|]. split; [|apply NoDup_singleton].
  intros x Hx ->%list_elem_of_singleton. done.
Qed.

Lemma dir_write_names name content d :
  (dir_write name content d).*1
  = if bool_decide (name ∈ d.*1) then d.*1 else d.*1 ++ [name].
Proof.
  induction d as [|[n c] d IH]; [done|].
  change (dir_write name content ((n, c) :: d))
    with (if String.eqb n name then (n, content) :: d else (n, c) :: dir_write name content d).
  destruct (String.eqb_spec n name) as [->|Hne]; rewrite !fmap_cons; cbn [fst].
  - rewrite bool_decide_eq_true_2; [done|]. apply list_elem_of_here.
  - rewrite IH. destruct (bool_decide_reflect (name ∈ d.*1)) as [Hin|Hnin].
    + rewrite bool_decide_eq_true_2; [done|]. by apply list_elem_of_further.
    + rewrite bool_decide_eq_false_2; [done|].
      intros [?|?]%elem_of_cons; congruence.
Qed.


Lemma dir_lookup_elem name d : name ∈ d.*1 -> is_Some (dir_lookup name d).
Proof.
  induction d as [|[n c] d IH]; rewrite ?fmap_cons; cbn [fst].
  - by intros ?%elem_of_nil.
  - simpl. destruct (String.eqb_spec n name) as [->|Hne]; [by eexists|].
    intros [?|?]%elem_of_cons; [congruence|by apply IH].
Qed.

(** *** Artifacts of a camera *)


Lemma is_artifact_of_own cam status :
  startswith "CAM_" cam = true -> is_verdict status ->
  is_artifact_of cam (artifact_name cam status) = true.
Proof.
  intros Hcam Hv. unfold is_artifact_of. rewrite parse_ready_artifact by done.
  apply String.eqb_refl.
Qed.

Lemma is_artifact_of_one cam cam' entry :
  is_artifact_of cam entry = true -> is_artifact_of cam' entry = true -> cam' = cam.
Proof.
  unfold is_artifact_of. destruct (_parse_ready_filename entry) as [[base status]|]; [|done].
  intros H1 H2. apply String.eqb_eq in H1, H2. congruence.
Qed.

Lemma filter_cons_bool {A} (p : A -> bool) (x : A) (l : list A) :
  filter (fun y => p y) (x :: l)
  = if p x then x :: filter (fun y => p y) l else filter (fun y => p y) l.
Proof. rewrite filter_cons. destruct (p x); by simpl. Qed.

Section ImageFacts.

Variable MODEL : option (list string -> option (list nat)).
Variable random_gt_half : nat -> bool.
Variable remove_ok : string -> bool.

Lemma remove_existing_run cam w :
  _remove_existing_ready_file remove_ok cam w
  = inr (tt, set_images_ready (after_remove remove_ok cam (images_ready w)) w).
Proof. reflexivity. Qed.

Lemma after_remove_cons cam n c d :
  after_remove remove_ok cam ((n, c) :: d)
  = if is_artifact_of cam n && remove_ok n then after_remove remove_ok cam d
    else (n, c) :: after_remove remove_ok cam d.
Proof.
  unfold after_remove. rewrite filter_cons_bool. cbn [fst].
  by destruct (is_artifact_of cam n && remove_ok n).
Qed.

Lemma removed_none cam (d : directory) :
  (forall entry, remove_ok entry = true) ->
  filter (fun name => is_artifact_of cam name) (after_remove remove_ok cam d).*1 = [].
Proof.
  intros Hok. induction d as [|[n c] d IH]; [done|].
  rewrite after_remove_cons, Hok, andb_true_r.
  destruct (is_artifact_of cam n) eqn:E; [done|].
  rewrite fmap_cons, filter_cons_bool. cbn [fst]. by rewrite E.
Qed.

Lemma removed_other cam cam' (d : directory) :
  cam' <> cam ->
  filter (fun name => is_artifact_of cam name) (after_remove remove_ok cam' d).*1
  = filter (fun name => is_artifact_of cam name) d.*1.
Proof.
  intros Hne. induction d as [|[n c] d IH]; [done|].
  rewrite after_remove_cons, (fmap_cons _ (n, c)), (filter_cons_bool _ n). cbn [fst].
  destruct (is_artifact_of cam n) eqn:E.
  - assert (is_artifact_of cam' n = false) as ->.
    { destruct (is_artifact_of cam' n) eqn:E'; [|done].
      by destruct (Hne (is_artifact_of_one _ _ _ E E')). }
    cbn [andb]. rewrite fmap_cons, filter_cons_bool. cbn [fst]. by rewrite E, IH.
  - destruct (_ && _); [done|].
    rewrite fmap_cons, filter_cons_bool. cbn [fst]. by rewrite E.
Qed.

Lemma write_ready_image_run src cam status w :
  _write_ready_image remove_ok src cam status w = inr (tt, written remove_ok src cam status w).
Proof.
  unfold _write_ready_image, written. io_unfold. rewrite remove_existing_run.
  change (read_source src (set_images_ready _ w)) with (read_source src w).
  by destruct (read_source src w).
Qed.

Lemma written_frame src cam status w :
  images_src (written remove_ok src cam status w) = images_src w /\
  feed_files (written remove_ok src cam status w) = feed_files w /\
  random_pos (written remove_ok src cam status w) = random_pos w.
Proof. unfold written. by destruct (read_source src w). Qed.


Lemma written_own src cam status w :
  (forall entry, remove_ok entry = true) ->
  startswith "CAM_" cam = true -> is_verdict status ->
  is_Some (read_source src w) ->
  filter (fun name => is_artifact_of cam name) (images_ready (written remove_ok src cam status w)).*1
  = [artifact_name cam status].
Proof.
  intros Hok Hcam Hv [content H]. unfold written. rewrite H. simpl.
  pose proof (removed_none cam (images_ready w) Hok) as Hnone.
  rewrite dir_write_names. case_bool_decide as Hin.
  - exfalso. assert (Hin' : artifact_name cam status
                            ∈ filter (fun name => is_artifact_of cam name)
                                     (after_remove remove_ok cam (images_ready w)).*1).
    { apply list_elem_of_filter. split; [|done]. by rewrite is_artifact_of_own. }
    rewrite Hnone in Hin'. by apply elem_of_nil in Hin'.
  - rewrite filter_app, Hnone, filter_cons_bool, is_artifact_of_own by done. done.
Qed.

(** Whether or not the copy succeeds, a write leaves at most one artifact of
    its camera. *)
Lemma written_at_most_one src cam status w :
  (forall entry, remove_ok entry = true) ->
  startswith "CAM_" cam = true -> is_verdict status ->
  length (filter (fun name => is_artifact_of cam name)
            (images_ready (written remove_ok src cam status w)).*1) <= 1.
Proof.
  intros Hok Hcam Hv. destruct (read_source src w) as [content|] eqn:E.
  - rewrite written_own by (try done; by eexists). simpl. lia.
  - unfold written. rewrite E. simpl. rewrite removed_none by done. simpl. lia.
Qed.


(** *** The listing of statuses *)

Lemma get_camera_status_run w :
  ControlServer.get_camera_status w
  = inr (fold_left status_step (images_ready w).*1 [], w).
Proof. reflexivity. Qed.

Lemma status_fold_NoDup names acc :
  NoDup acc.*1 -> NoDup (fold_left status_step names acc).*1.
Proof.
  revert acc. induction names as [|x names IH]; intros acc Hnd; [done|].
  simpl. apply IH. unfold status_step.
  destruct (ControlServer._parse_status_filename x) as [[c s]|]; [|done].
  by apply dict_set_NoDup.
Qed.

(** Every listing of statuses has distinct camera ids: the listings of the
    inactivity monitor are of this kind. *)
Lemma get_camera_status_NoDup w statuses w' :
  ControlServer.get_camera_status w = inr (statuses, w') -> NoDup statuses.*1.
Proof.
  rewrite get_camera_status_run. intros [= <- _]. apply status_fold_NoDup, NoDup_nil. done.
Qed.

Lemma status_fold_none cam names acc :
  filter (fun name => is_artifact_of cam name) names = [] ->
  dict_get cam (fold_left status_step names acc) = dict_get cam acc.
Proof.
  revert acc. induction names as [|x names IH]; intros acc; [done|].
  rewrite filter_cons_bool. destruct (is_artifact_of cam x) eqn:E; [done|].
  intros Hrest. simpl. rewrite IH by done. unfold status_step.
  rewrite parse_status_ready. unfold is_artifact_of in E.
  destruct (_parse_ready_filename x) as [[c s]|]; [|done].
  apply dict_get_set_ne. by apply String.eqb_neq.
Qed.




Lemma read_source_frame path w1 w2 :
  images_src w1 = images_src w2 -> read_source path w1 = read_source path w2.
Proof. intros H. unfold read_source. by rewrite H. Qed.





(** *** The detector *)

Lemma dict_set_absent {V} k (v : V) (d : dict V) :
  k ∉ d.*1 -> dict_set k v d = d ++ [(k, v)].
Proof.
  induction d as [|[k' v'] d IH]; [done|]. rewrite fmap_cons. cbn [fst].
  intros [Hne Hnin]%not_elem_of_cons. simpl.
  destruct (String.eqb_spec k' k); [congruence|]. by rewrite IH.
Qed.

Lemma dict_set_present_get {V} k (v : V) (d : dict V) k' :
  dict_get k' (dict_set k v d) = if String.eqb k k' then Some v else dict_get k' d.
Proof.
  destruct (String.eqb_spec k k') as [->|Hne].
  - apply dict_get_set.
  - by apply dict_get_set_ne.
Qed.

Lemma dict_of_keys {V} (dflt : V) (d : dict V) :
  NoDup d.*1 -> d = map (fun k => (k, default dflt (dict_get k d))) d.*1.
Proof.
  induction d as [|[k v] d IH]; [done|]. rewrite fmap_cons. cbn [fst].
  intros [Hk Hnd]%NoDup_cons. simpl map. rewrite String.eqb_refl. simpl. f_equal.
  rewrite IH at 1 by done. apply map_ext_in. intros k' Hin%list_elem_of_In.
  destruct (String.eqb_spec k k') as [->|]; done.
Qed.

Lemma init_results_fold (paths : list string) (acc : dict string) :
  NoDup (acc.*1 ++ paths) ->
  fold_left (fun d path => dict_set path "NO" d) paths acc
  = acc ++ map (fun path => (path, "NO")) paths.
Proof.
  revert acc. induction paths as [|p paths IH]; intros acc Hnd.
  - by rewrite app_nil_r.
  - simpl. rewrite dict_set_absent.
    + rewrite IH.
      * by rewrite <- app_assoc.
      * rewrite fmap_app. simpl. by rewrite <- app_assoc.
    + apply NoDup_app in Hnd as (_ & Hdisj & _). intros Hin.
      apply (Hdisj p Hin). apply list_elem_of_here.
Qed.

(** The loop over the predictions, from index [i] on. *)
Lemma mark_detections_spec (paths : list string) (all : list nat) :
  NoDup paths ->
  forall (rest : list nat) (i : nat) (rm : dict string),
    rest = drop i all ->
    rm.*1 = paths ->
    (forall j p, paths !! j = Some p ->
       dict_get p rm = Some (if j <? i then returned_verdict (Some all) j else "NO")) ->
    (mark_detections paths i rest rm).*1 = paths /\
    forall j p, paths !! j = Some p ->
      dict_get p (mark_detections paths i rest rm) = Some (returned_verdict (Some all) j).
Proof.
  intros Hnd rest. induction rest as [|boxes rest IH]; intros i rm Hrest Hkeys Hget.
  - simpl. split; [done|]. intros j p Hj. rewrite (Hget j p Hj).
    destruct (Nat.ltb_spec j i) as [Hlt|Hge]; [done|].
    unfold returned_verdict. rewrite lookup_ge_None_2; [done|].
    assert (length (drop i all) = 0) as Hlen by by rewrite <- Hrest.
    rewrite length_drop in Hlen. lia.
  - assert (Hi : all !! i = Some boxes).
    { rewrite <- (Nat.add_0_r i), <- lookup_drop, <- Hrest. done. }
    assert (Hrest' : rest = drop (S i) all).
    { rewrite <- (Nat.add_1_r i), <- drop_drop, <- Hrest. done. }
    simpl. destruct (0 <? boxes) eqn:Hb.
    + destruct (paths !! i) as [path|] eqn:Hpi.
      * apply IH; [done| |].
        -- rewrite dict_set_keys, Hkeys. rewrite bool_decide_eq_true_2; [done|].
           by eapply list_elem_of_lookup_2.
        -- intros j p Hj. rewrite dict_set_present_get.
           destruct (String.eqb_spec path p) as [->|Hne].
           ++ assert (j = i) as -> by (eapply NoDup_lookup; done).
              rewrite (proj2 (Nat.ltb_lt i (S i))) by lia.
              unfold returned_verdict. by rewrite Hi, Hb.
           ++ rewrite (Hget j p Hj).
              destruct (Nat.ltb_spec j i) as [Hlt|Hge].
              ** by rewrite (proj2 (Nat.ltb_lt j (S i))) by lia.
              ** assert (j <> i) by (intros ->; congruence).
                 by rewrite (proj2 (Nat.ltb_ge j (S i))) by lia.
      * split; [done|]. intros j p Hj. rewrite (Hget j p Hj).
        apply lookup_ge_None in Hpi. apply lookup_lt_Some in Hj.
        by rewrite (proj2 (Nat.ltb_lt j i)) by lia.
    + apply IH; [done..|]. intros j p Hj. rewrite (Hget j p Hj).
      destruct (Nat.ltb_spec j i) as [Hlt|Hge].
      * by rewrite (proj2 (Nat.ltb_lt j (S i))) by lia.
      * destruct (decide (j = i)) as [->|Hne].
        -- rewrite (proj2 (Nat.ltb_lt i (S i))) by lia.
           unfold returned_verdict. by rewrite Hi, Hb.
        -- by rewrite (proj2 (Nat.ltb_ge j (S i))) by lia.
Qed.

Lemma returned_verdict_is_verdict answer i : is_verdict (returned_verdict answer i).
Proof.
  unfold returned_verdict, is_verdict. destruct answer as [preds|]; [|by right].
  destruct (preds !! i) as [boxes|]; [|by right]. destruct (0 <? boxes); [by left|by right].
Qed.

Lemma dict_get_const (paths : list string) (v : string) p :
  p ∈ paths -> dict_get p (map (fun path => (path, v)) paths) = Some v.
Proof.
  induction paths as [|q paths IH]; [by intros ?%elem_of_nil|].
  simpl. destruct (String.eqb_spec q p) as [->|Hne]; [done|].
  intros [?|?]%elem_of_cons; [congruence|by apply IH].
Qed.

(** The fallback of the detector: one draw per path. *)
Lemma random_results_fold (paths : list string) (acc : dict string) (w : World) :
  NoDup (acc.*1 ++ paths) ->
  Forall (fun item : string * string => is_verdict item.2) acc ->
  exists results w1,
    for_fold paths
      (fun path results =>
         w ← get_world;
         modify_world (set_random_pos (S (random_pos w)));;
         mret (dict_set path (if random_gt_half (random_pos w) then "YES" else "NO") results))
      acc w = inr (results, w1) /\
    results.*1 = acc.*1 ++ paths /\
    Forall (fun item : string * string => is_verdict item.2) results /\
    images_src w1 = images_src w /\ images_ready w1 = images_ready w /\
    feed_files w1 = feed_files w.
Proof.
  revert acc w. induction paths as [|p paths IH]; intros acc w Hnd Hv.
  - exists acc, w. by rewrite app_nil_r.
  - rewrite for_fold_cons. io_unfold.
    assert (Hnin : p ∉ acc.*1).
    { apply NoDup_app in Hnd as (_ & Hdisj & _). intros Hin.
      apply (Hdisj p Hin). apply list_elem_of_here. }
    rewrite dict_set_absent by done.
    edestruct (IH (acc ++ [(p, if random_gt_half (random_pos w) then "YES" else "NO")])
                 (set_random_pos (S (random_pos w)) w))
      as (results & w1 & Hrun & Hkeys & Hres & Hsrc & Hready & Hfeeds).
    + rewrite fmap_app. simpl. by rewrite <- app_assoc.
    + apply Forall_app. split; [done|]. apply Forall_singleton. simpl.
      destruct (random_gt_half _); [by left|by right].
    + exists results, w1. split; [exact Hrun|]. split.
      { rewrite Hkeys, fmap_app. simpl. by rewrite <- app_assoc. }
      done.
Qed.

Lemma detect_run (batch : list string) (w : World) :
  NoDup batch ->
  exists results w1,
    detect_person_in_batch MODEL random_gt_half batch w = inr (results, w1) /\
    results.*1 = batch /\
    Forall (fun item : string * string => is_verdict item.2) results /\
    images_src w1 = images_src w /\ images_ready w1 = images_ready w /\
    feed_files w1 = feed_files w /\
    (forall predict, MODEL = Some predict ->
       w1 = w /\
       forall i p, batch !! i = Some p ->
         results !! i = Some (p, returned_verdict (predict batch) i)).
Proof.
  intros Hnd. unfold detect_person_in_batch. destruct MODEL as [predict|].
  - assert (Hinit : fold_left (fun d path => dict_set path "NO" d) batch []
                    = map (fun path => (path, "NO")) batch).
    { by rewrite init_results_fold. }
    rewrite Hinit.
    assert (Hspec : exists results,
               (match predict batch with
                | Some predictions =>
                    mret (mark_detections batch 0 predictions
                            (map (fun path => (path, "NO")) batch))
                | None => mret (map (fun path => (path, "NO")) batch)
                end : io (dict string)) w = inr (results, w) /\
               results.*1 = batch /\
               forall j p, batch !! j = Some p ->
                 dict_get p results = Some (returned_verdict (predict batch) j)).
    { assert (Hkeys : (map (fun path : string => (path, "NO")) batch).*1 = batch).
      { clear. induction batch as [|q batch IHb]; [done|]. simpl. f_equal. exact IHb. }
      destruct (predict batch) as [preds|].
      - eexists. split; [reflexivity|].
        apply (mark_detections_spec batch preds Hnd preds 0); [done|done|].
        intros j p Hj. simpl. apply dict_get_const. by eapply list_elem_of_lookup_2.
      - eexists. split; [reflexivity|]. split; [done|].
        intros j p Hj. apply dict_get_const. by eapply list_elem_of_lookup_2. }
    destruct Hspec as (results & Hrun & Hkeys & Hget).
    exists results, w. split; [exact Hrun|]. split; [exact Hkeys|].
    assert (Hlist : forall i p, batch !! i = Some p ->
                      results !! i = Some (p, returned_verdict (predict batch) i)).
    { intros i p Hi. rewrite (dict_of_keys "NO" results) by (by rewrite Hkeys).
      rewrite Hkeys. change (map ?f batch) with (f <$> batch).
      rewrite list_lookup_fmap, Hi. simpl. by rewrite (Hget i p Hi). }
    split.
    { apply Forall_forall. intros [p v] Hin. simpl.
      apply list_elem_of_lookup in Hin as [i Hi].
      assert (Hp : batch !! i = Some p).
      { rewrite <- Hkeys, list_lookup_fmap, Hi. done. }
      assert (v = returned_verdict (predict batch) i) as ->.
      { pose proof (Hlist i p Hp). congruence. }
      apply returned_verdict_is_verdict. }
    split; [done|]. split; [done|]. split; [done|].
    intros predict' Heq. injection Heq as <-. by split.
  - destruct (random_results_fold batch [] w) as (results & w1 & Hrun & Hkeys & Hv & Hf);
      [done|done|].
    exists results, w1. split; [exact Hrun|]. split; [exact Hkeys|]. split; [exact Hv|].
    destruct Hf as (? & ? & ?). split; [done|]. split; [done|]. split; [done|].
    by intros predict.
Qed.

(** *** Source images *)

Lemma path_join_src entry :
  contains "/"%char entry = false ->
  path_join IMAGE_SRC_DIR entry = "images_src/" +:+ entry.
Proof.
  intros H. unfold path_join, startswith. destruct entry as [|c entry]; [done|].
  apply orb_false_iff in H as [Hc _].
  change (String.prefix "/" (String c entry))
    with (if ascii_dec "/"%char c then String.prefix "" entry else false).
  destruct (ascii_dec "/"%char c) as [<-|]; done.
Qed.

Lemma startswith_self p s : startswith p (p +:+ s) = true.
Proof.
  unfold startswith. induction p as [|c p IH]; [by destruct s|].
  rewrite sapp_cons. simpl. by destruct (ascii_dec c c).
Qed.

Lemma slice_from_self p s : slice_from (String.length p) (p +:+ s) = s.
Proof. induction p as [|c p IH]; [done|]. by rewrite sapp_cons. Qed.

Lemma read_source_listed entry w :
  entry ∈ (images_src w).*1 -> contains "/"%char entry = false ->
  is_Some (read_source (path_join IMAGE_SRC_DIR entry) w).
Proof.
  intros Hin Hplain. rewrite path_join_src by done. unfold read_source.
  change ("images_src/" +:+ entry) with ((IMAGE_SRC_DIR +:+ "/") +:+ entry).
  rewrite startswith_self, slice_from_self.
  by apply dir_lookup_elem.
Qed.

Lemma plain_names_elem (d : directory) entry :
  plain_names d -> entry ∈ d.*1 -> contains "/"%char entry = false.
Proof.
  intros Hplain (item & -> & Hin)%list_elem_of_fmap.
  by apply (proj1 (Forall_forall _ _) Hplain).
Qed.

Lemma list_source_images_run w :
  exists listing,
    _list_source_images w = inr (listing, w) /\
    (plain_names (images_src w) -> Forall (fun p => is_Some (read_source p w)) listing) /\
    (plain_names (images_src w) -> NoDup (images_src w).*1 -> NoDup listing).
Proof.
  eexists. split; [reflexivity|]. split.
  - intros Hplain. apply Forall_forall. intros p Hp.
    apply list_elem_of_fmap in Hp as (entry & -> & Hin).
    apply list_elem_of_filter in Hin as [_ Hin].
    apply read_source_listed; [done|]. by eapply plain_names_elem.
  - intros Hplain Hnd. apply NoDup_fmap_2_strong.
    + intros e1 e2 Hin1%list_elem_of_filter Hin2%list_elem_of_filter.
      destruct Hin1 as [_ Hin1], Hin2 as [_ Hin2].
      rewrite !path_join_src by (by eapply plain_names_elem).
      apply String.app_inj.
    + by apply NoDup_filter.
Qed.

(** *** The batch path *)


Lemma write_detection_run p v w :
  write_detection remove_ok (p, v) w
  = inr (tt, written remove_ok p (_camera_id_from_path p) (status_token v) w).
Proof. unfold write_detection. by rewrite write_ready_image_run. Qed.

Lemma write_detections_run results w :
  for_each results (write_detection remove_ok) w = inr (tt, fold_left (written_item remove_ok) results w).
Proof.
  revert w. induction results as [|[p v] results IH]; intros w; [done|].
  by rewrite for_each_cons, write_detection_run, IH.
Qed.



(** *** Batches *)

Lemma slice_take_drop {A} (i n : nat) (l : list A) : slice i (i + n) l = take n (drop i l).
Proof. unfold slice. by replace (i + n - i) with n by lia. Qed.

Lemma chunks_prefix {A} (size k : nat) (l : list A) :
  concat (map (fun i => slice i (i + size) l) (map (fun j => j * size) (seq 0 k)))
  = take (k * size) l.
Proof.
  induction k as [|k IH]; [done|].
  rewrite seq_S, !map_app, concat_app, IH. simpl.
  rewrite app_nil_r, slice_take_drop, take_take_drop. f_equal. lia.
Qed.

Lemma chunks_concat {A} (size : nat) (l : list A) :
  0 < size ->
  concat (map (fun i => slice i (i + size) l) (py_range (length l) size)) = l.
Proof.
  intros Hpos. unfold py_range. rewrite chunks_prefix. apply take_ge.
  pose proof (Nat.div_mod_eq (length l + size - 1) size) as Hdm.
  pose proof (Nat.mod_upper_bound (length l + size - 1) size) as Hlt.
  nia.
Qed.







(** *** Force-update requests *)

Lemma find_source_frame cam w1 w2 :
  images_src w1 = images_src w2 -> find_source cam w1 = find_source cam w2.
Proof. intros H. unfold find_source. by rewrite H. Qed.


Lemma for_each_app_run {A} (l1 l2 : list A) (body : A -> io unit) w :
  for_each (l1 ++ l2) body w
  = match for_each l1 body w with
    | inl e => inl e
    | inr (_, w1) => for_each l2 body w1
    end.
Proof.
  revert w. induction l1 as [|x l1 IH]; intros w; [done|].
  simpl app. rewrite !for_each_cons. destruct (body x w) as [e|[[] w1]]; [done|]. apply IH.
Qed.

Lemma rstrip_nl_fixed s : rstrip s = s -> rstrip_nl s = s.
Proof.
  induction s as [|c s IH]; [done|]. simpl.
  destruct (rstrip s) as [|c' r] eqn:E.
  - destruct (is_space c) eqn:Hc; [done|]. intros [= <-]. simpl.
    destruct (Ascii.eqb_spec c LF) as [->|]; [done|]. done.
  - intros [= Hs]. rewrite IH by done. by rewrite <- Hs.
Qed.

Lemma rstrip_nl_app a s : rstrip_nl s <> "" -> rstrip_nl (a +:+ s) = a +:+ rstrip_nl s.
Proof.
  intros Hs. induction a as [|c a IH]; [done|].
  rewrite !sapp_cons. simpl. rewrite IH.
  destruct (a +:+ rstrip_nl s) eqn:E; [|done].
  destruct a; [|done]. by rewrite sapp_nil_l in E.
Qed.

(** A request never raises and leaves the source images as they are. *)
Lemma serve_force_request_frame req w :
  exists w', serve_force_request MODEL random_gt_half remove_ok req w = inr (tt, w') /\
             images_src w' = images_src w.
Proof.
  unfold serve_force_request. destruct (negb _); [by exists w|].
  destruct (negb _); [by exists w|]. destruct (negb _); [by exists w|].
  io_unfold. destruct (find_source _ w) as [path|]; [|by exists w].
  destruct (detect_run [path] w) as (results & w1 & Hrun & _ & _ & Hsrc & _).
  { apply NoDup_singleton. }
  rewrite Hrun, write_ready_image_run, append_run by done.
  eexists. split; [reflexivity|]. simpl.
  by rewrite (proj1 (written_frame _ _ _ _)).
Qed.

Lemma serve_force_requests_frame reqs w :
  exists w', for_each reqs (serve_force_request MODEL random_gt_half remove_ok) w = inr (tt, w') /\
             images_src w' = images_src w.
Proof.
  revert w. induction reqs as [|req reqs IH]; intros w; [by exists w|].
  rewrite for_each_cons.
  destruct (serve_force_request_frame req w) as (w1 & -> & Hsrc1).
  destruct (IH w1) as (w' & -> & Hsrc). exists w'. split; [done|]. congruence.
Qed.

(** C6. A request [FORCE_UPDATE_<camera_id>] whose camera id has no source
    image leaves the world as it is (no message on the served feed, no
    artifact written), and a list of requests is served as if the request
    were not in it. *)
Theorem force_update_dropped (cam : string) (before after : list string) (w : World) :
  find_source (strip cam) w = None ->
  serve_force_request MODEL random_gt_half remove_ok ("FORCE_UPDATE_" +:+ cam) w = inr (tt, w) /\
  for_each (before ++ ("FORCE_UPDATE_" +:+ cam) :: after)
    (serve_force_request MODEL random_gt_half remove_ok) w
  = for_each (before ++ after) (serve_force_request MODEL random_gt_half remove_ok) w.
Proof.
  intros Hnone.
  assert (Hdrop : forall w1, images_src w1 = images_src w ->
            serve_force_request MODEL random_gt_half remove_ok ("FORCE_UPDATE_" +:+ cam) w1
            = inr (tt, w1)).
  { intros w1 Hsrc. unfold serve_force_request.
    rewrite startswith_self. simpl negb. cbv iota.
    rewrite slice_from_self. cbv zeta.
    repeat (destruct (negb _); [done|]).
    io_unfold. cbv beta iota. by rewrite (find_source_frame _ w1 w), Hnone. }
  split; [by apply Hdrop|].
  rewrite !for_each_app_run.
  destruct (serve_force_requests_frame before w) as (w1 & -> & Hsrc).
  by rewrite for_each_cons, Hdrop.
Qed.


End ImageFacts.

(** ** The theorems of the image server at concrete inputs *)



Lemma force_update_dropped_witness :
  serve_force_request None (fun _ => true) (fun _ => true) ("FORCE_UPDATE_" +:+ "CAM_9") demo_world
  = inr (tt, demo_world) /\
  for_each (["FORCE_UPDATE_CAM_1"] ++ ("FORCE_UPDATE_" +:+ "CAM_9") :: ["FORCE_UPDATE_CAM_2"])
    (serve_force_request None (fun _ => true) (fun _ => true)) demo_world
  = for_each (["FORCE_UPDATE_CAM_1"] ++ ["FORCE_UPDATE_CAM_2"])
      (serve_force_request None (fun _ => true) (fun _ => true)) demo_world.
Proof.
  apply (force_update_dropped None (fun _ => true) (fun _ => true) "CAM_9"
           ["FORCE_UPDATE_CAM_1"] ["FORCE_UPDATE_CAM_2"] demo_world).
  reflexivity.
Defined.



(** * Further properties *)

(** ** The feed store, beyond append, drain and peek *)

Lemma clear_run feed w :
  strip feed <> "" ->
  clear_feed feed w
  = inr (tt, match feed_files w !! feed_file feed with
             | Some _ => set_feed_files (<[feed_file feed := ""]> (feed_files w)) w
             | None => w
             end).
Proof.
  intros H. unfold clear_feed. io_unfold. rewrite feed_path_run by done.
  by destruct (feed_files w !! feed_file feed).
Qed.

Lemma feed_path_raises feed w : strip feed = "" -> _feed_path feed w = inl blank_name_error.
Proof. intros H. unfold _feed_path. by rewrite H. Qed.

(** X1. Each of the five feed operations raises [ValueError] exactly when
    the feed name is blank (empty or whitespace only). *)
Theorem feed_operations_raise_on_blank_name (feed m : string) (messages : list string)
    (w : World) :
  (append_message feed m w = inl blank_name_error <-> strip feed = "") /\
  (append_messages feed messages w = inl blank_name_error <-> strip feed = "") /\
  (consume_messages feed w = inl blank_name_error <-> strip feed = "") /\
  (peek_messages feed w = inl blank_name_error <-> strip feed = "") /\
  (clear_feed feed w = inl blank_name_error <-> strip feed = "").
Proof.
  destruct (decide (strip feed = "")) as [Hb|Hb].
  - repeat split; try done; intros _;
      unfold append_message, append_messages, consume_messages, peek_messages, clear_feed;
      io_unfold; by rewrite feed_path_raises.
  - rewrite append_run, append_messages_run, consume_run, peek_run, clear_run by done.
    repeat split; done.
Qed.

Lemma set_feed_files_id w : set_feed_files (feed_files w) w = w.
Proof. by destruct w. Qed.

Lemma set_feed_files_twice f g w : set_feed_files f (set_feed_files g w) = set_feed_files f w.
Proof. reflexivity. Qed.

(** Appending the messages of a list one by one. *)
Lemma append_each_run feed (messages : list string) w :
  strip feed <> "" -> messages <> [] ->
  for_each messages (append_message feed) w
  = inr (tt, set_feed_files
               (<[feed_file feed :=
                    default "" (feed_files w !! feed_file feed) +:+ lines_of messages]>
                  (feed_files w)) w).
Proof.
  intros Hb. revert w. induction messages as [|m messages IH]; intros w Hne; [done|].
  rewrite for_each_cons, append_run by done.
  destruct messages as [|m' messages].
  - simpl. by rewrite sapp_nil_r.
  - rewrite IH by done. f_equal. f_equal.
    rewrite set_feed_files_twice. f_equal. simpl feed_files.
    rewrite lookup_insert_eq, insert_insert_eq. simpl default.
    f_equal. change (lines_of (m :: m' :: messages))
      with ((rstrip_nl m +:+ String LF "") +:+ lines_of (m' :: messages)).
    by rewrite sapp_assoc.
Qed.






(** X4. [clear_feed] leaves the world that [drain] leaves, and on that world
    [peek] and a further [drain] return the empty sequence and change
    nothing. *)
Theorem clear_feed_as_drain (feed : string) (w w' : World) (msgs : list string) :
  consume_messages feed w = inr (msgs, w') ->
  clear_feed feed w = inr (tt, w') /\
  peek_messages feed w' = inr ([], w') /\
  consume_messages feed w' = inr ([], w') /\
  clear_feed feed w' = inr (tt, w').
Proof.
  intros Hrun. destruct (decide (strip feed = "")) as [Hb|Hb].
  { by apply consume_blank in Hrun. }
  rewrite consume_run in Hrun by done. injection Hrun as _ <-.
  rewrite clear_run by done. split; [done|].
  rewrite peek_run, consume_run, clear_run by done.
  destruct (feed_files w !! feed_file feed) as [text|] eqn:E.
  - simpl feed_files. rewrite lookup_insert_eq.
    rewrite set_feed_files_twice, insert_insert_eq. done.
  - by rewrite E.
Qed.

Lemma clear_feed_as_drain_witness :
  clear_feed "POWER"
    (mkWorld {[ "feeds/POWER.feed" := "CAM_1_OFF" +:+ String LF "" ]} [] [] 0)
  = inr (tt, mkWorld {[ "feeds/POWER.feed" := "" ]} [] [] 0) /\
  peek_messages "POWER" (mkWorld {[ "feeds/POWER.feed" := "" ]} [] [] 0)
  = inr ([], mkWorld {[ "feeds/POWER.feed" := "" ]} [] [] 0) /\
  consume_messages "POWER" (mkWorld {[ "feeds/POWER.feed" := "" ]} [] [] 0)
  = inr ([], mkWorld {[ "feeds/POWER.feed" := "" ]} [] [] 0) /\
  clear_feed "POWER" (mkWorld {[ "feeds/POWER.feed" := "" ]} [] [] 0)
  = inr (tt, mkWorld {[ "feeds/POWER.feed" := "" ]} [] [] 0).
Proof.
  apply (clear_feed_as_drain "POWER"
           (mkWorld {[ "feeds/POWER.feed" := "CAM_1_OFF" +:+ String LF "" ]} [] [] 0)
           (mkWorld {[ "feeds/POWER.feed" := "" ]} [] [] 0) ["CAM_1_OFF"]).
  vm_compute. reflexivity.
Defined.






(** X7. The five feed operations keep every feed file empty or ended by a
    line terminator, the form the empty store starts in. *)
Theorem feed_operations_keep_files_terminated (feed m : string) (messages : list string)
    (w : World) :
  feeds_terminated w ->
  (forall w1, append_message feed m w = inr (tt, w1) -> feeds_terminated w1) /\
  (forall w1, append_messages feed messages w = inr (tt, w1) -> feeds_terminated w1) /\
  (forall msgs w1, consume_messages feed w = inr (msgs, w1) -> feeds_terminated w1) /\
  (forall msgs w1, peek_messages feed w = inr (msgs, w1) -> feeds_terminated w1) /\
  (forall w1, clear_feed feed w = inr (tt, w1) -> feeds_terminated w1).
Proof.
  intros Hw. split; [|split; [|split; [|split]]].
  - intros w1. by apply append_message_terminated.
  - intros w1. by apply append_messages_terminated.
  - intros msgs w1. by apply consume_messages_terminated.
  - intros msgs w1 Hrun. destruct (decide (strip feed = "")) as [Hb|Hb].
    { by apply peek_blank in Hrun. }
    rewrite peek_run in Hrun by done. by injection Hrun as _ <-.
  - intros w1. by apply clear_feed_terminated.
Qed.

Lemma feed_operations_keep_files_terminated_witness :
  (forall w1, append_message "POWER" "CAM_1_OFF" empty_world = inr (tt, w1) ->
              feeds_terminated w1) /\
  (forall w1, append_messages "POWER" ["a"; "b"] empty_world = inr (tt, w1) ->
              feeds_terminated w1) /\
  (forall msgs w1, consume_messages "POWER" empty_world = inr (msgs, w1) ->
                   feeds_terminated w1) /\
  (forall msgs w1, peek_messages "POWER" empty_world = inr (msgs, w1) ->
                   feeds_terminated w1) /\
  (forall w1, clear_feed "POWER" empty_world = inr (tt, w1) -> feeds_terminated w1).
Proof.
  apply (feed_operations_keep_files_terminated "POWER" "CAM_1_OFF" ["a"; "b"] empty_world).
  apply feeds_terminated_empty.
Defined.

Lemma rstrip_nl_snoc_LF m : rstrip_nl (m +:+ String LF "") = rstrip_nl m.
Proof.
  induction m as [|c m IH]; [done|]. rewrite sapp_cons. simpl. by rewrite IH.
Qed.

(** X8. Line feeds at the end of a message are dropped on write: appending a
    message followed by a line feed is appending the message, and the text
    written for a message ends with one line feed only. *)
Theorem append_drops_trailing_line_feeds (feed m : string) (w : World) :
  append_message feed (m +:+ String LF "") w = append_message feed m w /\
  forall rest, rstrip_nl m <> rest +:+ String LF "".
Proof.
  split.
  - unfold append_message. by rewrite rstrip_nl_snoc_LF.
  - intros rest H. assert (Hfix : rstrip_nl (rstrip_nl m) = rstrip_nl m).
    { clear. induction m as [|c m IH]; [done|]. simpl.
      destruct (rstrip_nl m) as [|c' r] eqn:E.
      - destruct (Ascii.eqb c LF) eqn:Hc; [done|]. simpl. by rewrite Hc.
      - simpl. simpl in IH. by rewrite IH. }
    rewrite H, rstrip_nl_snoc_LF in Hfix.
    assert (Hlen : String.length (rstrip_nl rest) <= String.length rest).
    { clear. induction rest as [|c r IH]; [done|]. simpl.
      destruct (rstrip_nl r); [destruct (Ascii.eqb c LF)|]; simpl in *; lia. }
    rewrite Hfix, sapp_length in Hlen. simpl in Hlen. lia.
Qed.

(** ** Artifact names *)

Lemma rsplit1_no_sep sep s a b : rsplit1 sep s = Some (a, b) -> contains sep b = false.
Proof.
  revert a. induction s as [|c s IH]; intros a; [done|]. simpl.
  destruct (rsplit1 sep s) as [[x y]|] eqn:E.
  - intros [= <- <-]. by eapply IH.
  - destruct (Ascii.eqb c sep); [|done]. intros [= <- <-].
    clear IH. induction s as [|c' s IH]; [done|]. simpl in *.
    destruct (rsplit1 sep s) as [[x y]|]; [done|].
    destruct (Ascii.eqb c' sep); [done|]. simpl. by apply IH.
Qed.

Lemma splitext_inv p stem ext : splitext p = (stem, ext) -> p = stem +:+ ext.
Proof.
  unfold splitext.
  destruct (rsplit1 "/"%char p) as [[d b]|] eqn:Ed.
  - apply rsplit1_inv in Ed.
    destruct (rsplit1 "."%char b) as [[root e]|] eqn:Ee.
    + destruct (all_chars _ root).
      * intros [= <- <-]. by rewrite sapp_nil_r.
      * intros [= <- <-]. apply rsplit1_inv in Ee. rewrite Ed, Ee.
        change (String "/"%char (root +:+ String "."%char e))
          with ("/" +:+ (root +:+ String "."%char e)).
        by rewrite !sapp_assoc.
    + intros [= <- <-]. by rewrite sapp_nil_r.
  - destruct (rsplit1 "."%char p) as [[root e]|] eqn:Ee.
    + destruct (all_chars _ root).
      * intros [= <- <-]. by rewrite sapp_nil_r.
      * intros [= <- <-]. by apply rsplit1_inv in Ee.
    + intros [= <- <-]. by rewrite sapp_nil_r.
Qed.

Lemma in_set_verdict status : in_set status ["YES"; "NO"] = true -> is_verdict status.
Proof.
  unfold in_set. simpl. destruct (String.eqb_spec status "YES") as [->|]; [by left|].
  destruct (String.eqb_spec status "NO") as [->|]; [by right|done].
Qed.

Lemma lower_char_keeps c x :
  x = "."%char \/ x = "/"%char ->
  Ascii.eqb (lower_char c) x = Ascii.eqb c x.
Proof.
  intros [-> | ->]; by destruct c as [[] [] [] [] [] [] [] []].
Qed.

Lemma upper_char_keeps c x :
  x = "."%char \/ x = "/"%char \/ x = "_"%char ->
  Ascii.eqb (upper_char c) x = Ascii.eqb c x.
Proof.
  intros [-> | [-> | ->]]; by destruct c as [[] [] [] [] [] [] [] []].
Qed.

Lemma contains_lower x s :
  x = "."%char \/ x = "/"%char -> contains x (lower s) = contains x s.
Proof.
  intros Hx. induction s as [|c s IH]; [done|].
  change (contains x (lower (String c s)))
    with (Ascii.eqb (lower_char c) x || contains x (lower s)).
  change (contains x (String c s)) with (Ascii.eqb c x || contains x s).
  by rewrite lower_char_keeps, IH.
Qed.

Lemma contains_upper x s :
  x = "."%char \/ x = "/"%char \/ x = "_"%char -> contains x (upper s) = contains x s.
Proof.
  intros Hx. induction s as [|c s IH]; [done|].
  change (contains x (upper (String c s)))
    with (Ascii.eqb (upper_char c) x || contains x (upper s)).
  change (contains x (String c s)) with (Ascii.eqb c x || contains x s).
  by rewrite upper_char_keeps, IH.
Qed.

Lemma lower_dot_head ext :
  in_set (lower ext) [".jpg"; ".jpeg"; ".png"] = true ->
  exists e, ext = String "."%char e /\ contains "."%char e = false /\
            contains "/"%char e = false.
Proof.
  intros H. destruct ext as [|c e]; [done|].
  assert (Hc : lower_char c = "."%char /\
               (lower e = "jpg" \/ lower e = "jpeg" \/ lower e = "png")).
  { change (in_set (lower (String c e)) [".jpg"; ".jpeg"; ".png"])
      with (String.eqb (String (lower_char c) (lower e)) ".jpg"
            || (String.eqb (String (lower_char c) (lower e)) ".jpeg"
                || (String.eqb (String (lower_char c) (lower e)) ".png" || false))) in H.
    destruct (String.eqb_spec (String (lower_char c) (lower e)) ".jpg") as [[= -> ->]|_];
      [by auto|].
    destruct (String.eqb_spec (String (lower_char c) (lower e)) ".jpeg") as [[= -> ->]|_];
      [by auto|].
    destruct (String.eqb_spec (String (lower_char c) (lower e)) ".png") as [[= -> ->]|_];
      [by auto|done]. }
  destruct Hc as [Hc He]. exists e.
  assert (c = "."%char) as ->.
  { apply Ascii.eqb_eq. rewrite <- (lower_char_keeps c) by auto. by apply Ascii.eqb_eq. }
  split; [done|].
  rewrite <- (contains_lower "."%char e), <- (contains_lower "/"%char e) by auto.
  by destruct He as [-> | [-> | ->]].
Qed.

(** X9. The status parser accepts exactly the names
    [<camera_id>_<token><ext>] in which the camera id starts with [CAM_],
    the token is [YES] or [NO] once in upper case, and the
    extension is [.jpg], [.jpeg] or [.png] in lower case; it returns the
    camera id and the token in upper case. *)
Theorem parse_status_filename_grammar (filename cam status : string) :
  _parse_status_filename filename = Some (cam, status) <->
  exists token ext,
    filename = cam +:+ "_" +:+ token +:+ ext /\
    startswith "CAM_" cam = true /\
    upper token = status /\ is_verdict status /\
    in_set (lower ext) [".jpg"; ".jpeg"; ".png"] = true.
Proof.
  split.
  - unfold _parse_status_filename.
    destruct (splitext filename) as [stem ext] eqn:Esplit.
    destruct (in_set (lower ext) [".jpg"; ".jpeg"; ".png"]) eqn:Hext; [|done]. cbn [negb].
    destruct (contains "_"%char stem); [|done]. cbn [negb].
    destruct (rsplit1 "_"%char stem) as [[c token]|] eqn:Etoken; [|done]. cbv zeta.
    destruct (startswith "CAM_" c) eqn:Hcam; [|done]. cbn [negb].
    destruct (in_set (upper token) ["YES"; "NO"]) eqn:Hst; [|done]. cbn [negb].
    intros [= <- <-]. exists token, ext.
    apply splitext_inv in Esplit. apply rsplit1_inv in Etoken.
    split; [|by auto using in_set_verdict].
    rewrite Esplit, Etoken. change (String "_"%char token) with ("_" +:+ token).
    by rewrite !sapp_assoc.
  - intros (token & ext & -> & Hcam & <- & Hv & Hext).
    destruct (lower_dot_head ext Hext) as (e & -> & Hdot & Hsep).
    assert (Htok : forall x, x = "."%char \/ x = "/"%char \/ x = "_"%char ->
                     contains x token = false).
    { intros x Hx. rewrite <- (contains_upper x token) by done.
      destruct Hx as [-> | [-> | ->]]; by destruct Hv as [-> | ->]. }
    unfold _parse_status_filename.
    assert (Hsplit : splitext (cam +:+ "_" +:+ token +:+ String "."%char e)
                     = (cam +:+ "_" +:+ token, String "."%char e)).
    { rewrite <- !sapp_assoc. apply splitext_app; [done..|].
      rewrite sapp_assoc, basename_app_keep.
      - rewrite all_chars_app. change ("_" +:+ token) with (String "_"%char token). simpl.
        apply andb_false_r.
      - change ("_" +:+ token) with (String "_"%char token). simpl. by apply Htok; auto. }
    rewrite Hsplit, Hext. cbn [negb].
    rewrite contains_app. replace (contains "_"%char ("_" +:+ token)) with true by done.
    rewrite orb_true_r. cbn [negb].
    change ("_" +:+ token) with (String "_"%char token).
    rewrite rsplit1_app by (apply Htok; auto). cbv zeta. rewrite Hcam.
    by destruct Hv as [-> | ->].
Qed.

(** X10. The three readers of the ready directory parse a name alike: the
    control server, the image server, which makes its two tests in the other
    order, and the dashboard. *)
Theorem readers_parse_alike (filename : string) :
  _parse_status_filename filename = _parse_ready_filename filename /\
  UI._parse_ready_filename filename = _parse_status_filename filename.
Proof. split; [apply parse_status_ready|reflexivity]. Qed.

(** ** The listing of statuses *)

Lemma status_fold_skip cam names acc :
  (forall name status, name ∈ names -> _parse_status_filename name <> Some (cam, status)) ->
  dict_get cam (fold_left status_step names acc) = dict_get cam acc.
Proof.
  intros Hnone. apply status_fold_none.
  induction names as [|x names IH]; [done|].
  rewrite filter_cons_bool.
  assert (is_artifact_of cam x = false) as ->.
  { unfold is_artifact_of. rewrite <- parse_status_ready.
    destruct (_parse_status_filename x) as [[c s]|] eqn:E; [|done].
    apply String.eqb_neq. intros ->. eapply Hnone; [apply list_elem_of_here|exact E]. }
  apply IH. intros name status Hin. apply Hnone. by apply list_elem_of_further.
Qed.

Lemma status_fold_source cam status names acc :
  dict_get cam (fold_left status_step names acc) = Some status ->
  dict_get cam acc = Some status \/
  exists name, name ∈ names /\ _parse_status_filename name = Some (cam, status).
Proof.
  revert acc. induction names as [|x names IH]; intros acc; [by left|].
  simpl. intros H. destruct (IH _ H) as [Hacc|(name & Hin & Hp)].
  - unfold status_step in Hacc.
    destruct (_parse_status_filename x) as [[c s]|] eqn:E; [|by left].
    rewrite dict_set_present_get in Hacc.
    destruct (String.eqb_spec c cam) as [->|Hne]; [|by left].
    injection Hacc as ->. right. exists x. split; [apply list_elem_of_here|done].
  - right. exists name. split; [by apply list_elem_of_further|done].
Qed.

(** X11. [get_camera_status] reads the ready directory without changing
    anything and lists each camera once.  A camera is listed with the status
    of the last entry, in listing order, whose name parses to it, and is not
    listed when no entry does; every listed status comes from an entry. *)
Theorem get_camera_status_last_entry_wins (w w' : World) (statuses : dict string)
    (cam : string) :
  get_camera_status w = inr (statuses, w') ->
  w' = w /\ NoDup statuses.*1 /\
  ((forall name status, name ∈ (images_ready w).*1 ->
      _parse_status_filename name <> Some (cam, status)) ->
   dict_get cam statuses = None) /\
  (forall earlier name later status,
      (images_ready w).*1 = earlier ++ name :: later ->
      _parse_status_filename name = Some (cam, status) ->
      (forall name' status', name' ∈ later ->
         _parse_status_filename name' <> Some (cam, status')) ->
      dict_get cam statuses = Some status) /\
  (forall status, dict_get cam statuses = Some status ->
      exists name, name ∈ (images_ready w).*1 /\
                   _parse_status_filename name = Some (cam, status)).
Proof.
  rewrite get_camera_status_run. intros [= <- <-].
  split; [done|]. split; [by apply status_fold_NoDup, NoDup_nil|]. split; [|split].
  - intros Hnone. by rewrite status_fold_skip.
  - intros earlier name later status -> Hparse Hlater.
    rewrite fold_left_app. simpl fold_left. rewrite status_fold_skip by done.
    unfold status_step at 1. rewrite Hparse. apply dict_get_set.
  - intros status H. by destruct (status_fold_source _ _ _ _ H) as [?|?].
Qed.

Lemma get_camera_status_last_entry_wins_witness :
  demo_world = demo_world /\ NoDup [("CAM_1", "YES")].*1 /\
  ((forall name status, name ∈ (images_ready demo_world).*1 ->
      _parse_status_filename name <> Some ("CAM_1", status)) ->
   dict_get "CAM_1" [("CAM_1", "YES")] = None) /\
  (forall earlier name later status,
      (images_ready demo_world).*1 = earlier ++ name :: later ->
      _parse_status_filename name = Some ("CAM_1", status) ->
      (forall name' status', name' ∈ later ->
         _parse_status_filename name' <> Some ("CAM_1", status')) ->
      dict_get "CAM_1" [("CAM_1", "YES")] = Some status) /\
  (forall status, dict_get "CAM_1" [("CAM_1", "YES")] = Some status ->
      exists name, name ∈ (images_ready demo_world).*1 /\
                   _parse_status_filename name = Some ("CAM_1", status)).
Proof.
  apply (get_camera_status_last_entry_wins demo_world demo_world [("CAM_1", "YES")] "CAM_1").
  reflexivity.
Defined.

(** ** The inactivity monitor, turn after turn *)

Lemma observe_status_bounded k s counts w :
  counts_bounded counts ->
  exists counts1 w1,
    observe_status (k, s) counts w = inr (counts1, w1) /\ counts_bounded counts1.
Proof.
  intros Hb. rewrite observe_status_run. cbv zeta.
  destruct (INACTIVITY_THRESHOLD <=? _) eqn:Hfired.
  - eexists _, _. split; [reflexivity|]. intros cam.
    destruct (decide (k = cam)) as [->|Hne].
    + rewrite count_of_insert. unfold INACTIVITY_THRESHOLD. lia.
    + rewrite !count_of_insert_ne by done. apply Hb.
  - eexists _, _. split; [reflexivity|]. intros cam.
    destruct (decide (k = cam)) as [->|Hne].
    + rewrite count_of_insert. by apply Nat.leb_gt in Hfired.
    + rewrite count_of_insert_ne by done. apply Hb.
Qed.

Lemma inactivity_pass_bounded statuses counts w :
  counts_bounded counts ->
  exists counts' w',
    inactivity_pass statuses counts w = inr (counts', w') /\ counts_bounded counts'.
Proof.
  unfold inactivity_pass. revert counts w.
  induction statuses as [|[k s] statuses IH]; intros counts w Hb.
  - by exists counts, w.
  - rewrite for_fold_cons.
    destruct (observe_status_bounded k s counts w Hb) as (counts1 & w1 & -> & Hb1).
    by apply IH.
Qed.

Lemma read_control_feed_total w : exists w', read_control_feed w = inr (tt, w').
Proof.
  unfold read_control_feed. io_unfold. rewrite consume_run by done.
  apply for_each_total. intros. apply handle_command_total.
Qed.

(** X12. The counters of the control server stay below the threshold: a turn
    of [main] that starts with every counter below 10 ends with every
    counter below 10, and never raises. *)
Theorem counters_stay_below_threshold (counts : gmap string nat) (w : World) :
  counts_bounded counts ->
  exists counts' w',
    main_iteration counts w = inr (counts', w') /\ counts_bounded counts'.
Proof.
  intros Hb. unfold main_iteration. io_unfold.
  destruct (read_control_feed_total w) as [w1 ->].
  rewrite get_camera_status_run. by apply inactivity_pass_bounded.
Qed.

Lemma counters_stay_below_threshold_witness :
  exists counts' w',
    main_iteration ∅ demo_world = inr (counts', w') /\ counts_bounded counts'.
Proof.
  apply (counters_stay_below_threshold ∅ demo_world).
  intros cam. unfold count_of. rewrite lookup_empty. simpl. unfold INACTIVITY_THRESHOLD. lia.
Defined.





(** ** What a turn of the control server touches *)

Lemma handle_command_writes command w :
  exists msgs w',
    handle_command command w = inr (tt, w') /\
    for_each msgs write_to_power_feed w = inr (tt, w').
Proof.
  unfold handle_command. cbv zeta.
  destruct (negb (startswith _ _)); [by exists [], w|].
  destruct (rsplit1 _ _) as [[target state]|]; [|by exists [], w].
  destruct (negb (in_set _ _)); [by exists [], w|].
  eexists [_], _. rewrite for_each_cons, !write_to_power_feed_run. by split.
Qed.

Lemma handle_commands_write commands w :
  exists msgs w',
    for_each commands handle_command w = inr (tt, w') /\
    for_each msgs write_to_power_feed w = inr (tt, w').
Proof.
  revert w. induction commands as [|c commands IH]; intros w.
  - by exists [], w.
  - destruct (handle_command_writes c w) as (msgs1 & w1 & Hc & Hw1).
    destruct (IH w1) as (msgs2 & w' & Hrest & Hw2).
    exists (msgs1 ++ msgs2), w'. split.
    + by rewrite for_each_cons, Hc.
    + by eapply for_each_app.
Qed.

Lemma power_writes_frame msgs w w' :
  for_each msgs write_to_power_feed w = inr (tt, w') ->
  images_src w' = images_src w /\ images_ready w' = images_ready w /\
  random_pos w' = random_pos w /\
  (forall path, path <> feed_file POWER_FEED ->
     feed_files w' !! path = feed_files w !! path) /\
  default "" (feed_files w' !! feed_file POWER_FEED)
  = default "" (feed_files w !! feed_file POWER_FEED) +:+ lines_of msgs.
Proof.
  destruct msgs as [|m msgs].
  - intros [= <-]. simpl. by rewrite sapp_nil_r.
  - change (for_each (m :: msgs) write_to_power_feed w)
      with (for_each (m :: msgs) (append_message POWER_FEED) w).
    rewrite append_each_run by done. intros [= <-].
    destruct w as [files src ready pos]. cbn.
    split; [done|]. split; [done|]. split; [done|]. split.
    + intros path Hne. by rewrite lookup_insert_ne.
    + by rewrite lookup_insert_eq.
Qed.

(** X15. A turn of [main] never raises and touches two files only: it
    leaves the control feed without pending text, it appends to the power
    feed without rewriting what was there, and it changes no other feed
    file and no image directory. *)
Theorem main_iteration_touches_two_feeds (counts : gmap string nat) (w : World) :
  exists counts' w' added,
    main_iteration counts w = inr (counts', w') /\
    default "" (feed_files w' !! feed_file CONTROL_FEED) = "" /\
    default "" (feed_files w' !! feed_file POWER_FEED)
    = default "" (feed_files w !! feed_file POWER_FEED) +:+ added /\
    (forall path, path <> feed_file CONTROL_FEED -> path <> feed_file POWER_FEED ->
       feed_files w' !! path = feed_files w !! path) /\
    images_src w' = images_src w /\ images_ready w' = images_ready w.
Proof.
  unfold main_iteration, read_control_feed. io_unfold. rewrite consume_run by done.
  set (w0 := match feed_files w !! feed_file CONTROL_FEED with
             | Some _ => set_feed_files (<[feed_file CONTROL_FEED := ""]> (feed_files w)) w
             | None => w
             end).
  assert (Hw0 : default "" (feed_files w0 !! feed_file CONTROL_FEED) = "" /\
                (forall path, path <> feed_file CONTROL_FEED ->
                   feed_files w0 !! path = feed_files w !! path) /\
                images_src w0 = images_src w /\ images_ready w0 = images_ready w).
  { subst w0. destruct (feed_files w !! feed_file CONTROL_FEED) eqn:Hc.
    - destruct w as [files src ready pos]. cbn in *.
      rewrite lookup_insert_eq. split; [done|]. split; [|done].
      intros path Hne. by rewrite lookup_insert_ne.
    - by rewrite Hc. }
  destruct Hw0 as (Hctl & Hother & Hsrc & Hready).
  destruct (handle_commands_write
              (match feed_files w !! feed_file CONTROL_FEED with
               | Some text => stripped_lines text
               | None => []
               end) w0) as (msgs1 & w1 & -> & Hw1).
  rewrite get_camera_status_run.
  destruct (inactivity_pass_camera "" (fold_left status_step (images_ready w1).*1 []) counts w1)
    as (counts' & w' & msgs2 & -> & Hw2 & _).
  { apply status_fold_NoDup. constructor. }
  exists counts', w', (lines_of msgs1 +:+ lines_of msgs2). split; [done|].
  apply power_writes_frame in Hw1 as (Hs1 & Hr1 & _ & Ho1 & Hp1).
  apply power_writes_frame in Hw2 as (Hs2 & Hr2 & _ & Ho2 & Hp2).
  assert (Hne : feed_file CONTROL_FEED <> feed_file POWER_FEED) by done.
  split; [by rewrite Ho2, Ho1|]. split.
  { by rewrite Hp2, Hp1, Hother, sapp_assoc. }
  split.
  { intros path Hc Hp. by rewrite Ho2, Ho1, Hother. }
  split; congruence.
Qed.

(** ** The image server: what a capture leaves *)

Lemma for_each_invariant {A} (P : World -> Prop) (l : list A) (body : A -> io unit) w :
  (forall x w, P w -> exists w', body x w = inr (tt, w') /\ P w') ->
  P w -> exists w', for_each l body w = inr (tt, w') /\ P w'.
Proof.
  intros Hbody. revert w. induction l as [|x l IH]; intros w HP.
  - by exists w.
  - rewrite for_each_cons. destruct (Hbody x w HP) as (w1 & -> & HP1). by apply IH.
Qed.

Lemma dir_write_entries name content (d : directory) entry :
  entry ∈ dir_write name content d -> entry ∈ d \/ entry = (name, content).
Proof.
  induction d as [|[n c] d IH]; simpl.
  - intros ->%list_elem_of_singleton. by right.
  - destruct (String.eqb n name) eqn:Hn.
    + apply String.eqb_eq in Hn as ->.
      intros [->|Hin]%elem_of_cons; [by right|]. left. by apply list_elem_of_further.
    + intros [->|Hin]%elem_of_cons; [left; apply list_elem_of_here|].
      destruct (IH Hin) as [Hd | ->]; [left; by apply list_elem_of_further|by right].
Qed.

Lemma status_token_is_verdict status : is_verdict (status_token status).
Proof.
  unfold status_token. destruct (in_set (upper status) ["YES"; "NO"]) eqn:Hin.
  - by apply in_set_verdict.
  - by right.
Qed.

Section CaptureFacts.

Variable MODEL : option (list string -> option (list nat)).
Variable random_gt_half : nat -> bool.
Variable remove_ok : string -> bool.

Lemma written_entries src cam status w entry :
  entry ∈ images_ready (written remove_ok src cam status w) ->
  entry ∈ images_ready w \/
  (read_source src w = Some entry.2 /\ entry.1 = artifact_name cam status).
Proof.
  unfold written, after_remove. destruct (read_source src w) as [content|]; simpl.
  - intros [Hin | ->]%dir_write_entries; [|by right].
    left. by apply list_elem_of_filter in Hin as [_ Hin].
  - intros Hin. left. by apply list_elem_of_filter in Hin as [_ Hin].
Qed.

Lemma random_fold_total (paths : list string) (acc : dict string) (w : World) :
  exists results w1,
    for_fold paths
      (fun path results =>
         w ← get_world;
         modify_world (set_random_pos (S (random_pos w)));;
         mret (dict_set path (if random_gt_half (random_pos w) then "YES" else "NO") results))
      acc w = inr (results, w1) /\
    images_src w1 = images_src w /\ images_ready w1 = images_ready w /\
    feed_files w1 = feed_files w.
Proof.
  revert acc w. induction paths as [|p paths IH]; intros acc w.
  - by exists acc, w.
  - rewrite for_fold_cons. io_unfold.
    destruct (IH (dict_set p (if random_gt_half (random_pos w) then "YES" else "NO") acc)
                 (set_random_pos (S (random_pos w)) w))
      as (results & w1 & Hrun & Hsrc & Hready & Hfeeds).
    by exists results, w1.
Qed.

Lemma detect_total (batch : list string) (w : World) :
  exists results w1,
    detect_person_in_batch MODEL random_gt_half batch w = inr (results, w1) /\
    images_src w1 = images_src w /\ images_ready w1 = images_ready w /\
    feed_files w1 = feed_files w.
Proof.
  unfold detect_person_in_batch. destruct MODEL as [predict|].
  - destruct (predict batch); by eexists _, w.
  - apply random_fold_total.
Qed.

Lemma written_items_invariant w0 results w :
  images_src w = images_src w0 /\ feed_files w = feed_files w0 /\
  Forall (entry_from w0) (images_ready w) ->
  images_src (fold_left (written_item remove_ok) results w) = images_src w0 /\
  feed_files (fold_left (written_item remove_ok) results w) = feed_files w0 /\
  Forall (entry_from w0) (images_ready (fold_left (written_item remove_ok) results w)).
Proof.
  revert w. induction results as [|[p v] results IH]; intros w (Hsrc & Hfeeds & Hready); [done|].
  simpl. apply IH. unfold written_item. simpl.
  destruct (written_frame remove_ok p (_camera_id_from_path p) (status_token v) w)
    as (Hs & Hf & _).
  split; [congruence|]. split; [congruence|].
  apply Forall_forall. intros entry [Hin|[Hread Hname]]%written_entries.
  - by eapply Forall_forall in Hready.
  - right. exists p, (status_token v). split.
    + by rewrite <- (read_source_frame p w w0).
    + split; [apply status_token_is_verdict|done].
Qed.

Lemma process_batch_invariant w0 batch w :
  images_src w = images_src w0 /\ feed_files w = feed_files w0 /\
  Forall (entry_from w0) (images_ready w) ->
  exists w',
    process_batch MODEL random_gt_half remove_ok batch w = inr (tt, w') /\
    (images_src w' = images_src w0 /\ feed_files w' = feed_files w0 /\
     Forall (entry_from w0) (images_ready w')).
Proof.
  intros (Hsrc & Hfeeds & Hready). unfold process_batch. io_unfold.
  destruct (detect_total batch w) as (results & w1 & -> & Hs & Hr & Hf).
  rewrite write_detections_run. eexists. split; [reflexivity|].
  apply written_items_invariant. rewrite Hs, Hr, Hf. done.
Qed.

(** X16. [capture_and_update_images] never raises, whatever the detector
    does and whether or not old artifacts can be removed.  It keeps the
    source images and the feed files as they are, and every entry it leaves
    in the ready directory either was there before or holds the content of a
    source image under the name [<camera_id>_<YES|NO>.jpg] of that image's
    camera. *)
Theorem capture_keeps_sources (w : World) :
  exists w',
    capture_and_update_images MODEL random_gt_half remove_ok w = inr (tt, w') /\
    images_src w' = images_src w /\ feed_files w' = feed_files w /\
    Forall (entry_from w) (images_ready w').
Proof.
  unfold capture_and_update_images, capture_with. io_unfold.
  destruct (list_source_images_run w) as (listing & -> & _).
  assert (Hstart : images_src w = images_src w /\ feed_files w = feed_files w /\
                   Forall (entry_from w) (images_ready w)).
  { split; [done|]. split; [done|]. apply Forall_forall. intros entry Hin. by left. }
  case_bool_decide; [by exists w|].
  apply for_each_invariant; [|done].
  intros i w1. apply process_batch_invariant.
Qed.

End CaptureFacts.

(** ** Writing one status artifact *)

Lemma dir_lookup_write name content (d : directory) name' :
  dir_lookup name' (dir_write name content d)
  = if String.eqb name name' then Some content else dir_lookup name' d.
Proof.
  induction d as [|[n c] d IH]; simpl.
  - by destruct (String.eqb name name').
  - destruct (String.eqb_spec n name) as [->|Hn]; simpl.
    + by destruct (String.eqb name name').
    + rewrite IH. destruct (String.eqb_spec n name') as [->|Hn']; [|done].
      by destruct (String.eqb_spec name name') as [->|_].
Qed.

Lemma status_fold_cong cam names acc1 acc2 :
  dict_get cam acc1 = dict_get cam acc2 ->
  dict_get cam (fold_left status_step names acc1)
  = dict_get cam (fold_left status_step names acc2).
Proof.
  revert acc1 acc2. induction names as [|x names IH]; intros acc1 acc2 Hacc; [done|].
  simpl. apply IH. unfold status_step.
  destruct (_parse_status_filename x) as [[c s]|]; [|done].
  by rewrite !dict_set_present_get, Hacc.
Qed.

Lemma status_fold_filter cam names acc :
  dict_get cam (fold_left status_step names acc)
  = dict_get cam (fold_left status_step (filter (fun name => is_artifact_of cam name) names) acc).
Proof.
  revert acc. induction names as [|x names IH]; intros acc; [done|].
  rewrite filter_cons_bool. destruct (is_artifact_of cam x) eqn:E; simpl; [apply IH|].
  rewrite IH. apply status_fold_cong. unfold status_step.
  unfold is_artifact_of in E. rewrite <- parse_status_ready in E.
  destruct (_parse_status_filename x) as [[c s]|]; [|done].
  rewrite dict_set_present_get. by rewrite E.
Qed.

Section WriteFacts.

Variable remove_ok : string -> bool.

Lemma dir_lookup_after_remove cam name (d : directory) :
  is_artifact_of cam name = false ->
  dir_lookup name (after_remove remove_ok cam d) = dir_lookup name d.
Proof.
  intros Hname. induction d as [|[n c] d IH]; [done|].
  rewrite after_remove_cons.
  destruct (is_artifact_of cam n && remove_ok n) eqn:E; simpl.
  - destruct (String.eqb_spec n name) as [->|Hn]; [|done].
    by rewrite Hname in E.
  - by rewrite IH.
Qed.

(** X17. Whether or not old artifacts can be removed, [_write_ready_image]
    on a readable source leaves the file [<camera_id>_<status>.jpg] in the
    ready directory with the content of the source.  Files that are not
    artifacts of that camera keep their content, and the source directory
    is untouched. *)
Theorem write_ready_image_copies_source (src cam status content : string) (w : World) :
  read_source src w = Some content ->
  exists w',
    _write_ready_image remove_ok src cam status w = inr (tt, w') /\
    dir_lookup (artifact_name cam status) (images_ready w') = Some content /\
    (forall name, is_artifact_of cam name = false -> name <> artifact_name cam status ->
       dir_lookup name (images_ready w') = dir_lookup name (images_ready w)) /\
    images_src w' = images_src w /\ feed_files w' = feed_files w.
Proof.
  intros Hread. rewrite write_ready_image_run. eexists. split; [reflexivity|].
  unfold written. rewrite Hread. cbn.
  split; [by rewrite dir_lookup_write, String.eqb_refl|]. split; [|done].
  intros name Hart Hne. rewrite dir_lookup_write.
  destruct (String.eqb_spec (artifact_name cam status) name) as [<-|_]; [done|].
  by apply dir_lookup_after_remove.
Qed.

(** X18. When the source cannot be read, [_write_ready_image] does not
    raise and writes nothing, but it has already removed the artifacts of
    the camera: with removals that succeed, the camera is no longer in the
    listing of statuses, and the other cameras are listed as before. *)
Theorem unreadable_source_unlists_camera (src cam status : string) (w : World)
    (before : dict string) :
  (forall entry, remove_ok entry = true) ->
  read_source src w = None ->
  get_camera_status w = inr (before, w) ->
  exists w' statuses,
    _write_ready_image remove_ok src cam status w = inr (tt, w') /\
    get_camera_status w' = inr (statuses, w') /\
    dict_get cam statuses = None /\
    (forall other, other <> cam -> dict_get other statuses = dict_get other before) /\
    (images_ready w').*1 ⊆ (images_ready w).*1.
Proof.
  intros Hok Hread Hbefore. rewrite get_camera_status_run in Hbefore.
  injection Hbefore as <-.
  rewrite write_ready_image_run. eexists _, _. split; [reflexivity|].
  rewrite get_camera_status_run. split; [reflexivity|].
  unfold written. rewrite Hread. cbn.
  split; [|split].
  - apply status_fold_none. by apply removed_none.
  - intros other Hne.
    rewrite (status_fold_filter other (after_remove remove_ok cam (images_ready w)).*1).
    rewrite (status_fold_filter other (images_ready w).*1).
    by rewrite removed_other.
  - unfold after_remove. intros name (entry & -> & Hin)%list_elem_of_fmap.
    apply list_elem_of_filter in Hin as [_ Hin]. apply list_elem_of_fmap. by exists entry.
Qed.

End WriteFacts.

Lemma write_ready_image_copies_source_witness :
  exists w',
    _write_ready_image (fun _ => false) "images_src/CAM_1.jpg" "CAM_1" "YES" demo_world
    = inr (tt, w') /\
    dir_lookup (artifact_name "CAM_1" "YES") (images_ready w') = Some "image 1" /\
    (forall name, is_artifact_of "CAM_1" name = false -> name <> artifact_name "CAM_1" "YES" ->
       dir_lookup name (images_ready w') = dir_lookup name (images_ready demo_world)) /\
    images_src w' = images_src demo_world /\ feed_files w' = feed_files demo_world.
Proof.
  apply (write_ready_image_copies_source (fun _ => false) "images_src/CAM_1.jpg" "CAM_1" "YES"
           "image 1" demo_world).
  reflexivity.
Defined.

Lemma unreadable_source_unlists_camera_witness :
  exists w' statuses,
    _write_ready_image (fun _ => true) "images_src/CAM_9.jpg" "CAM_1" "YES" demo_world
    = inr (tt, w') /\
    get_camera_status w' = inr (statuses, w') /\
    dict_get "CAM_1" statuses = None /\
    (forall other, other <> "CAM_1" ->
       dict_get other statuses = dict_get other [("CAM_1", "YES")]) /\
    (images_ready w').*1 ⊆ (images_ready demo_world).*1.
Proof.
  apply (unreadable_source_unlists_camera (fun _ => true) "images_src/CAM_9.jpg" "CAM_1" "YES"
           demo_world [("CAM_1", "YES")]).
  - reflexivity.
  - reflexivity.
  - reflexivity.
Defined.

(** ** Batches and the fall-back detector *)

Lemma py_range_bound (n size i : nat) :
  0 < size -> i ∈ py_range n size -> i < n.
Proof.
  intros Hpos. unfold py_range.
  intros (k & -> & Hk)%list_elem_of_fmap. apply elem_of_seq in Hk.
  assert (Hle : size * ((n + size - 1) / size) <= n + size - 1)
    by (apply Nat.Div0.mul_div_le).
  nia.
Qed.

(** X19. The batches of [capture_and_update_images] cut the listing into
    consecutive pieces: put end to end they give the listing back, none is
    empty and none holds more than [BATCH_SIZE] paths. *)
Theorem batches_partition_listing (all_image_files : list string) :
  concat (map (fun i => slice i (i + BATCH_SIZE) all_image_files)
            (py_range (length all_image_files) BATCH_SIZE))
  = all_image_files /\
  Forall (fun batch_paths : list string => 0 < length batch_paths <= BATCH_SIZE)
    (map (fun i => slice i (i + BATCH_SIZE) all_image_files)
       (py_range (length all_image_files) BATCH_SIZE)).
Proof.
  split.
  - apply chunks_concat. unfold BATCH_SIZE. lia.
  - apply Forall_forall. intros batch (i & -> & Hi)%list_elem_of_fmap.
    apply py_range_bound in Hi; [|unfold BATCH_SIZE; lia].
    rewrite slice_take_drop, length_take, length_drop. unfold BATCH_SIZE in *. lia.
Qed.

Lemma set_random_pos_twice n m w :
  set_random_pos n (set_random_pos m w) = set_random_pos n w.
Proof. done. Qed.

Lemma fallback_fold (random_gt_half : nat -> bool) (paths : list string)
    (acc : dict string) (w : World) :
  NoDup (acc.*1 ++ paths) ->
  for_fold paths
    (fun path results =>
       w ← get_world;
       modify_world (set_random_pos (S (random_pos w)));;
       mret (dict_set path (if random_gt_half (random_pos w) then "YES" else "NO") results))
    acc w
  = inr (acc ++ imap (fun i path =>
                        (path, if random_gt_half (random_pos w + i) then "YES" else "NO"))
                  paths,
         set_random_pos (random_pos w + length paths) w).
Proof.
  revert acc w. induction paths as [|p paths IH]; intros acc w Hnd.
  - simpl. rewrite app_nil_r, Nat.add_0_r. by destruct w.
  - rewrite for_fold_cons. io_unfold.
    assert (Hnin : p ∉ acc.*1).
    { apply NoDup_app in Hnd as (_ & Hdisj & _). intros Hin.
      apply (Hdisj p Hin). apply list_elem_of_here. }
    rewrite dict_set_absent by done.
    rewrite IH by (rewrite fmap_app; simpl; by rewrite <- app_assoc).
    rewrite set_random_pos_twice, <- app_assoc. simpl app.
    rewrite Nat.add_0_r. f_equal. f_equal.
    + f_equal. f_equal. apply imap_ext. intros i x _. simpl.
      by rewrite Nat.add_succ_r.
    + simpl. by rewrite Nat.add_succ_r.
Qed.

(** X20. Without a model, [detect_person_in_batch] still answers for every
    path: for paths that are pairwise different, the [i]-th path gets [YES]
    or [NO] by the [i]-th draw from the random generator, in the order of
    the paths, and one draw is consumed per path; nothing else changes. *)
Theorem fallback_detector_draws_once_per_path (random_gt_half : nat -> bool)
    (image_paths : list string) (w : World) :
  NoDup image_paths ->
  detect_person_in_batch None random_gt_half image_paths w
  = inr (imap (fun i path =>
                 (path, if random_gt_half (random_pos w + i) then "YES" else "NO"))
           image_paths,
         set_random_pos (random_pos w + length image_paths) w).
Proof.
  intros Hnd. unfold detect_person_in_batch. by rewrite fallback_fold.
Qed.

Lemma fallback_detector_draws_once_per_path_witness :
  detect_person_in_batch None Nat.even ["images_src/CAM_1.jpg"; "images_src/CAM_2.png"]
    demo_world
  = inr (imap (fun i path =>
                 (path, if Nat.even (random_pos demo_world + i) then "YES" else "NO"))
           ["images_src/CAM_1.jpg"; "images_src/CAM_2.png"],
         set_random_pos
           (random_pos demo_world + length ["images_src/CAM_1.jpg"; "images_src/CAM_2.png"])
           demo_world).
Proof.
  apply (fallback_detector_draws_once_per_path Nat.even
           ["images_src/CAM_1.jpg"; "images_src/CAM_2.png"] demo_world).
  apply NoDup_ListNoDup. repeat constructor; simpl; intuition discriminate.
Defined.

(** ** From a capture to the listing of statuses *)

Lemma listed_camera_id entry :
  contains "/"%char entry = false ->
  _camera_id_from_path (path_join IMAGE_SRC_DIR entry) = (splitext entry).1.
Proof.
  intros Hplain. rewrite path_join_src by done. unfold _camera_id_from_path. cbv zeta.
  rewrite basename_app_keep by done.
  change (basename "images_src/") with "". rewrite sapp_nil_l.
  by destruct (startswith "CAM_" (splitext entry).1).
Qed.


Section PipelineFacts.

Variable remove_ok : string -> bool.



End PipelineFacts.


(** ** Force-update requests and their acknowledgements *)

Lemma served_camera_frame w1 w2 req :
  images_src w1 = images_src w2 -> served_camera w1 req = served_camera w2 req.
Proof. intros H. unfold served_camera. by rewrite (find_source_frame _ w1 w2). Qed.

Section ForceFacts.

Variable MODEL : option (list string -> option (list nat)).
Variable random_gt_half : nat -> bool.
Variable remove_ok : string -> bool.

Lemma serve_force_request_feeds req w :
  exists w',
    serve_force_request MODEL random_gt_half remove_ok req w = inr (tt, w') /\
    images_src w' = images_src w /\
    feed_files w'
    = match served_camera w req with
      | Some cam =>
          <[feed_file FORCE_SERVED_FEED :=
              default "" (feed_files w !! feed_file FORCE_SERVED_FEED)
              +:+ ("UPDATED_" +:+ cam +:+ String LF "")]> (feed_files w)
      | None => feed_files w
      end.
Proof.
  unfold serve_force_request, served_camera. cbv zeta.
  set (cam := strip (slice_from (String.length "FORCE_UPDATE_") req)).
  assert (Hstrip : strip cam = cam) by apply strip_idemp.
  clearbody cam.
  destruct (startswith "FORCE_UPDATE_" req); cbn [negb andb]; [|by exists w].
  destruct (startswith "CAM_" cam) eqn:Hcam; cbn [negb].
  - assert (Hne : cam <> "") by (by destruct cam).
    apply truthy_true in Hne as Htruthy. rewrite Htruthy. cbn [negb]. io_unfold.
    destruct (find_source cam w) as [path|]; [|by exists w].
    destruct (detect_total MODEL random_gt_half [path] w) as (results & w1 & -> & Hsrc & _ & Hfeeds).
    rewrite write_ready_image_run, append_run by done.
    eexists. split; [reflexivity|]. unfold set_feed_files. cbn [images_src feed_files].
    match goal with
    | |- context [written remove_ok ?p ?c ?s w1] =>
        destruct (written_frame remove_ok p c s w1) as (-> & -> & _)
    end.
    split; [done|]. rewrite Hfeeds. f_equal. f_equal.
    rewrite rstrip_nl_app.
    + rewrite rstrip_nl_fixed by (by apply rstrip_fixed_strip). by rewrite sapp_assoc.
    + by rewrite rstrip_nl_fixed by (by apply rstrip_fixed_strip).
  - destruct (negb (truthy _)); by exists w.
Qed.

Lemma serve_force_requests_feeds w0 reqs w :
  images_src w = images_src w0 ->
  exists w',
    for_each reqs (serve_force_request MODEL random_gt_half remove_ok) w = inr (tt, w') /\
    images_src w' = images_src w0 /\
    (forall path, path <> feed_file FORCE_SERVED_FEED ->
       feed_files w' !! path = feed_files w !! path) /\
    default "" (feed_files w' !! feed_file FORCE_SERVED_FEED)
    = default "" (feed_files w !! feed_file FORCE_SERVED_FEED)
      +:+ acknowledgements (omap (served_camera w0) reqs).
Proof.
  revert w. induction reqs as [|req reqs IH]; intros w Hw.
  - exists w. simpl. by rewrite sapp_nil_r.
  - rewrite for_each_cons.
    destruct (serve_force_request_feeds req w) as (w1 & -> & Hsrc1 & Hfeeds1).
    destruct (IH w1 ltac:(congruence)) as (w' & -> & Hsrc & Hother & Hserved).
    exists w'. split; [done|]. split; [done|].
    rewrite (served_camera_frame w w0) in Hfeeds1 by done.
    cbn [omap list_omap].
    destruct (served_camera w0 req) as [cam|].
    + split.
      * intros path Hne. rewrite Hother by done. rewrite Hfeeds1. by rewrite lookup_insert_ne.
      * rewrite Hserved, Hfeeds1, lookup_insert_eq. simpl. by rewrite !sapp_assoc.
    + split.
      * intros path Hne. rewrite Hother by done. by rewrite Hfeeds1.
      * by rewrite Hserved, Hfeeds1.
Qed.

Lemma process_force_requests_feeds (requests : list string) (w : World) :
  peek_messages FORCE_REQUEST_FEED w = inr (requests, w) ->
  exists w',
    process_force_requests MODEL random_gt_half remove_ok w = inr (tt, w') /\
    default "" (feed_files w' !! feed_file FORCE_REQUEST_FEED) = "" /\
    default "" (feed_files w' !! feed_file FORCE_SERVED_FEED)
    = default "" (feed_files w !! feed_file FORCE_SERVED_FEED)
      +:+ acknowledgements (omap (served_camera w) requests) /\
    (forall path, path <> feed_file FORCE_REQUEST_FEED -> path <> feed_file FORCE_SERVED_FEED ->
       feed_files w' !! path = feed_files w !! path) /\
    images_src w' = images_src w.
Proof.
  rewrite peek_run by done. intros [= Hreq].
  unfold process_force_requests. io_unfold. rewrite consume_run, Hreq by done.
  set (w0 := match feed_files w !! feed_file FORCE_REQUEST_FEED with
             | Some _ => set_feed_files (<[feed_file FORCE_REQUEST_FEED := ""]> (feed_files w)) w
             | None => w
             end).
  assert (Hw0 : default "" (feed_files w0 !! feed_file FORCE_REQUEST_FEED) = "" /\
                (forall path, path <> feed_file FORCE_REQUEST_FEED ->
                   feed_files w0 !! path = feed_files w !! path) /\
                images_src w0 = images_src w).
  { subst w0. destruct (feed_files w !! feed_file FORCE_REQUEST_FEED) eqn:Hc.
    - destruct w as [files src ready pos]. cbn in *.
      rewrite lookup_insert_eq. split; [done|]. split; [|done].
      intros path Hne. by rewrite lookup_insert_ne.
    - by rewrite Hc. }
  destruct Hw0 as (Hctl & Hother & Hsrc).
  destruct (serve_force_requests_feeds w requests w0 Hsrc)
    as (w' & -> & Hsrc' & Hother' & Hserved).
  assert (Hne : feed_file FORCE_REQUEST_FEED <> feed_file FORCE_SERVED_FEED) by done.
  exists w'. split; [done|]. split; [by rewrite Hother'|].
  split; [by rewrite Hserved, Hother|]. split; [|done].
  intros path Hp1 Hp2. by rewrite Hother', Hother.
Qed.

(** X22. [process_force_requests] never raises.  It empties the request
    feed and answers the pending requests in their order: the served feed
    gains one line [UPDATED_<camera_id>] for each request, repeated ones
    included, that reads [FORCE_UPDATE_<camera_id>] with an id of the form
    [CAM_*] that has a source image, and nothing for the other requests.
    No other feed file changes and the source images are kept. *)
Theorem force_requests_acknowledged (requests : list string) (w : World) :
  peek_messages FORCE_REQUEST_FEED w = inr (requests, w) ->
  exists w',
    process_force_requests MODEL random_gt_half remove_ok w = inr (tt, w') /\
    default "" (feed_files w' !! feed_file FORCE_REQUEST_FEED) = "" /\
    default "" (feed_files w' !! feed_file FORCE_SERVED_FEED)
    = default "" (feed_files w !! feed_file FORCE_SERVED_FEED)
      +:+ acknowledgements (omap (served_camera w) requests) /\
    (forall path, path <> feed_file FORCE_REQUEST_FEED -> path <> feed_file FORCE_SERVED_FEED ->
       feed_files w' !! path = feed_files w !! path) /\
    images_src w' = images_src w.
Proof. apply process_force_requests_feeds. Qed.

End ForceFacts.

Lemma force_requests_acknowledged_witness :
  exists w',
    process_force_requests None (fun _ => true) (fun _ => true) demo_requests = inr (tt, w') /\
    default "" (feed_files w' !! feed_file FORCE_REQUEST_FEED) = "" /\
    default "" (feed_files w' !! feed_file FORCE_SERVED_FEED)
    = default "" (feed_files demo_requests !! feed_file FORCE_SERVED_FEED)
      +:+ acknowledgements
            (omap (served_camera demo_requests)
               ["FORCE_UPDATE_CAM_2"; "FORCE_UPDATE_CAM_7"; "hello"; "FORCE_UPDATE_CAM_2"]) /\
    (forall path, path <> feed_file FORCE_REQUEST_FEED -> path <> feed_file FORCE_SERVED_FEED ->
       feed_files w' !! path = feed_files demo_requests !! path) /\
    images_src w' = images_src demo_requests.
Proof.
  apply (force_requests_acknowledged None (fun _ => true) (fun _ => true)
           ["FORCE_UPDATE_CAM_2"; "FORCE_UPDATE_CAM_7"; "hello"; "FORCE_UPDATE_CAM_2"]
           demo_requests).
  vm_compute. reflexivity.
Defined.

(** ** The two searches for source images *)

Lemma rsplit1_none sep s : contains sep s = false -> rsplit1 sep s = None.
Proof.
  induction s as [|c s IH]; [done|]. simpl.
  intros [Hc Hs]%orb_false_iff. by rewrite IH, Hc.
Qed.

Lemma lower_app a b : lower (a +:+ b) = lower a +:+ lower b.
Proof.
  induction a as [|c a IH]; [done|].
  rewrite sapp_cons.
  change (lower (String c (a +:+ b))) with (String (lower_char c) (lower (a +:+ b))).
  change (lower (String c a)) with (String (lower_char c) (lower a)).
  by rewrite IH, sapp_cons.
Qed.

Lemma endswith_app suffix a : endswith suffix (a +:+ suffix) = true.
Proof.
  induction a as [|c a IH].
  - rewrite sapp_nil_l. destruct suffix as [|c s]; [done|].
    change (endswith (String c s) (String c s))
      with (String.eqb (String c s) (String c s) || endswith (String c s) s).
    by rewrite String.eqb_refl.
  - rewrite sapp_cons.
    change (endswith suffix (String c (a +:+ suffix)))
      with (String.eqb (String c (a +:+ suffix)) suffix || endswith suffix (a +:+ suffix)).
    rewrite IH. apply orb_true_r.
Qed.

Lemma endswith_inv suffix s : endswith suffix s = true -> exists a, s = a +:+ suffix.
Proof.
  induction s as [|c s IH]; cbn [endswith].
  - rewrite orb_false_r. intros <-%String.eqb_eq. by exists "".
  - intros [<-%String.eqb_eq | Hs]%orb_true_iff; [by exists ""|].
    destruct (IH Hs) as [a ->]. exists (String c a). by rewrite sapp_cons.
Qed.

Lemma rsplit1_lower s :
  rsplit1 "."%char (lower s)
  = match rsplit1 "."%char s with
    | Some (a, b) => Some (lower a, lower b)
    | None => None
    end.
Proof.
  induction s as [|c s IH]; [done|].
  change (lower (String c s)) with (String (lower_char c) (lower s)).
  simpl. rewrite IH. destruct (rsplit1 "."%char s) as [[a b]|]; [done|].
  rewrite lower_char_keeps by auto. by destruct (Ascii.eqb c "."%char).
Qed.

Lemma dots_not_camera root rest :
  all_chars (Ascii.eqb "."%char) root = true ->
  startswith "CAM_" (root +:+ String "."%char rest) = false.
Proof.
  destruct root as [|c root]; [done|]. cbn [all_chars].
  intros [Hc _]%andb_true_iff. apply Ascii.eqb_eq in Hc as <-. by rewrite sapp_cons.
Qed.

Lemma splitext_plain entry :
  contains "/"%char entry = false ->
  splitext entry
  = match rsplit1 "."%char entry with
    | Some (root, ext) =>
        if all_chars (Ascii.eqb "."%char) root then (entry, "")
        else (root, String "."%char ext)
    | None => (entry, "")
    end.
Proof. intros H. unfold splitext. by rewrite rsplit1_none. Qed.

Lemma extension_of_camera_file entry suffix :
  contains "/"%char entry = false ->
  startswith "CAM_" (splitext entry).1 = true ->
  contains "."%char suffix = false ->
  endswith (String "."%char suffix) (lower entry) = true ->
  lower (splitext entry).2 = String "."%char suffix.
Proof.
  intros Hplain Hcam Hsuffix [a Ha]%endswith_inv.
  pose proof (rsplit1_lower entry) as Hsplit.
  rewrite Ha, rsplit1_app in Hsplit by done.
  rewrite splitext_plain in * by done.
  destruct (rsplit1 "."%char entry) as [[root ext]|] eqn:Hentry; [|done].
  injection Hsplit as _ Hext.
  destruct (all_chars (Ascii.eqb "."%char) root) eqn:Hdots.
  - apply rsplit1_inv in Hentry. simpl in Hcam. rewrite Hentry in Hcam.
    by rewrite dots_not_camera in Hcam.
  - simpl. change (lower (String "."%char ext)) with (String "."%char (lower ext)).
    by rewrite <- Hext.
Qed.

Lemma source_extension entry :
  contains "/"%char entry = false ->
  startswith "CAM_" (splitext entry).1 = true ->
  endswith ".jpg" (lower entry) || endswith ".jpeg" (lower entry)
  || endswith ".png" (lower entry)
  = in_set (lower (splitext entry).2) [".jpg"; ".jpeg"; ".png"].
Proof.
  intros Hplain Hcam.
  destruct (in_set (lower (splitext entry).2) [".jpg"; ".jpeg"; ".png"]) eqn:Hset.
  - destruct (splitext entry) as [stem ext] eqn:Hsplit.
    apply splitext_inv in Hsplit as ->. rewrite lower_app. simpl in Hset.
    unfold in_set in Hset. simpl in Hset.
    destruct (String.eqb_spec (lower ext) ".jpg") as [->|_].
    { by rewrite endswith_app. }
    destruct (String.eqb_spec (lower ext) ".jpeg") as [->|_].
    { by rewrite endswith_app, orb_true_r. }
    destruct (String.eqb_spec (lower ext) ".png") as [->|_]; [|done].
    by rewrite endswith_app, !orb_true_r.
  - destruct (endswith ".jpg" (lower entry)) eqn:H1.
    { by rewrite (extension_of_camera_file entry "jpg") in Hset. }
    destruct (endswith ".jpeg" (lower entry)) eqn:H2.
    { by rewrite (extension_of_camera_file entry "jpeg") in Hset. }
    destruct (endswith ".png" (lower entry)) eqn:H3; [|done].
    by rewrite (extension_of_camera_file entry "png") in Hset.
Qed.

(** X23. The periodic capture and the force update look for source images
    in two ways, by the end of the lower-cased name and by the extension
    that [splitext] gives; on a directory listing they agree.  The image
    that a force update finds for a camera id of the form [CAM_*] is among
    the images the capture lists, and it is an image of that camera; and
    for every image the capture lists, a force update for its camera finds
    an image of that camera. *)
Theorem capture_and_force_update_agree_on_sources (w : World) (listing : list string) :
  plain_names (images_src w) ->
  _list_source_images w = inr (listing, w) ->
  (forall cam path,
     startswith "CAM_" cam = true -> find_source cam w = Some path ->
     path ∈ listing /\ _camera_id_from_path path = cam) /\
  (forall path,
     path ∈ listing ->
     exists path',
       find_source (_camera_id_from_path path) w = Some path' /\
       _camera_id_from_path path' = _camera_id_from_path path).
Proof.
  intros Hplain. unfold _list_source_images. io_unfold. intros [= <-].
  assert (Hfound : forall cam path,
             startswith "CAM_" cam = true -> find_source cam w = Some path ->
             exists entry, path = path_join IMAGE_SRC_DIR entry /\
                           entry ∈ (images_src w).*1 /\
                           (splitext entry).1 = cam /\
                           in_set (lower (splitext entry).2) [".jpg"; ".jpeg"; ".png"] = true).
  { intros cam path Hcam Hfind. unfold find_source in Hfind.
    destruct (find _ _) as [entry|] eqn:Hentry; [|done]. injection Hfind as <-.
    apply find_some in Hentry as [Hin Hkeep]. exists entry.
    destruct (splitext entry) as [stem ext]. apply andb_true_iff in Hkeep as [Hext Hstem].
    apply String.eqb_eq in Hstem. by rewrite <- list_elem_of_In in Hin. }
  split.
  - intros cam path Hcam Hfind.
    destruct (Hfound cam path Hcam Hfind) as (entry & -> & Hin & Hstem & Hext).
    assert (Hentry : contains "/"%char entry = false) by (by eapply plain_names_elem).
    split; [|by rewrite listed_camera_id].
    apply list_elem_of_fmap. exists entry. split; [done|].
    apply list_elem_of_filter. split; [|done].
    apply Is_true_true. rewrite source_extension by (by rewrite ?Hstem).
    by rewrite Hext, Hstem, Hcam.
  - intros path (entry & -> & Hin)%list_elem_of_fmap.
    apply list_elem_of_filter in Hin as [Hkeep Hin].
    assert (Hentry : contains "/"%char entry = false) by (by eapply plain_names_elem).
    apply Is_true_true in Hkeep. apply andb_true_iff in Hkeep as [Hext Hcam].
    rewrite source_extension in Hext by done.
    rewrite listed_camera_id by done.
    destruct (find_source (splitext entry).1 w) as [path'|] eqn:Hfind.
    + exists path'. split; [done|].
      destruct (Hfound _ _ Hcam Hfind) as (entry' & -> & Hin' & Hstem & _).
      rewrite listed_camera_id; [done|]. by eapply plain_names_elem.
    + exfalso. unfold find_source in Hfind.
      destruct (find _ _) as [?|] eqn:Hnone; [done|].
      pose proof (find_none _ _ Hnone entry (proj1 (list_elem_of_In _ _) Hin)) as Hfalse.
      cbv beta in Hfalse. destruct (splitext entry) as [stem ext]. cbn [fst snd] in *.
      by rewrite Hext, String.eqb_refl in Hfalse.
Qed.

Lemma capture_and_force_update_agree_on_sources_witness :
  (forall cam path,
     startswith "CAM_" cam = true -> find_source cam demo_world = Some path ->
     path ∈ ["images_src/CAM_1.jpg"; "images_src/CAM_2.png"] /\
     _camera_id_from_path path = cam) /\
  (forall path,
     path ∈ ["images_src/CAM_1.jpg"; "images_src/CAM_2.png"] ->
     exists path',
       find_source (_camera_id_from_path path) demo_world = Some path' /\
       _camera_id_from_path path' = _camera_id_from_path path).
Proof.
  apply (capture_and_force_update_agree_on_sources demo_world
           ["images_src/CAM_1.jpg"; "images_src/CAM_2.png"]).
  - repeat constructor.
  - reflexivity.
Defined.

(** ** The dashboard *)

Lemma dict_set_map {V W} (f : V -> W) k (v : V) (d : dict V) :
  map (fun entry => (entry.1, f entry.2)) (dict_set k v d)
  = dict_set k (f v) (map (fun entry => (entry.1, f entry.2)) d).
Proof.
  induction d as [|[k' v'] d IH]; [done|]. simpl.
  destruct (String.eqb k' k); [done|]. simpl. by rewrite IH.
Qed.

Lemma dict_set_Forall {V} (P : string * V -> Prop) k (v : V) (d : dict V) :
  P (k, v) -> Forall P d -> Forall P (dict_set k v d).
Proof.
  intros Hkv Hd. induction Hd as [|[k' v'] d Hx Hd IH]; simpl.
  - by apply Forall_singleton.
  - destruct (String.eqb k' k); by constructor.
Qed.

Lemma camera_fold_statuses names (acc : dict (string * string)) :
  map (fun entry => (entry.1, entry.2.2)) (fold_left camera_step names acc)
  = fold_left status_step names (map (fun entry => (entry.1, entry.2.2)) acc).
Proof.
  revert acc. induction names as [|x names IH]; intros acc; [done|].
  simpl. rewrite IH. f_equal. unfold camera_step, status_step.
  change (UI._parse_ready_filename x) with (_parse_status_filename x).
  destruct (_parse_status_filename x) as [[c s]|]; [|done].
  by rewrite (dict_set_map snd).
Qed.

Lemma camera_fold_entries (P : string * (string * string) -> Prop) names acc :
  (forall filename camera_id status,
     filename ∈ names -> _parse_status_filename filename = Some (camera_id, status) ->
     P (camera_id, (path_join UI.IMAGE_DIR filename, status))) ->
  Forall P acc -> Forall P (fold_left camera_step names acc).
Proof.
  revert acc. induction names as [|x names IH]; intros acc Hstep Hacc; [done|].
  simpl. apply IH.
  - intros filename c s Hin. apply Hstep. by apply list_elem_of_further.
  - unfold camera_step.
    change (UI._parse_ready_filename x) with (_parse_status_filename x).
    destruct (_parse_status_filename x) as [[c s]|] eqn:E; [|done].
    apply dict_set_Forall; [|done]. apply Hstep; [apply list_elem_of_here|done].
Qed.

(** X24. The dashboard and the control server read the ready directory
    alike: [discover_cameras] changes nothing and lists the cameras that
    [get_camera_status] lists, in the same order and with the same
    statuses, and the image path it gives for a camera is the path, inside
    the ready directory, of an entry that parses to that camera and
    status. *)
Theorem dashboard_lists_cameras_of_control_server (w : World) :
  exists cameras,
    UI.discover_cameras w = inr (cameras, w) /\
    get_camera_status w = inr (map (fun entry => (entry.1, entry.2.2)) cameras, w) /\
    Forall (fun entry : string * (string * string) =>
              exists filename,
                filename ∈ (images_ready w).*1 /\
                entry.2.1 = path_join UI.IMAGE_DIR filename /\
                _parse_status_filename filename = Some (entry.1, entry.2.2))
      cameras.
Proof.
  exists (fold_left camera_step (images_ready w).*1 []).
  split; [reflexivity|]. split.
  - by rewrite get_camera_status_run, camera_fold_statuses.
  - apply camera_fold_entries; [|done].
    intros filename c s Hin Hparse. by exists filename.
Qed.

(** ** From the dashboard to the servers *)

Lemma rstrip_app a s : rstrip s <> "" -> rstrip (a +:+ s) = a +:+ rstrip s.
Proof.
  intros Hs. induction a as [|c a IH]; [done|].
  rewrite !sapp_cons. simpl. rewrite IH.
  destruct (a +:+ rstrip s) eqn:E; [|done].
  destruct a; [|done]. by rewrite sapp_nil_l in E.
Qed.

Lemma startswith_inv p s : startswith p s = true -> exists rest, s = p +:+ rest.
Proof.
  unfold startswith. revert s. induction p as [|a p IH]; intros s.
  - intros _. by exists s.
  - destruct s as [|b s]; [done|]. simpl.
    destruct (ascii_dec a b) as [->|]; [|done].
    intros [rest ->]%IH. exists rest. by rewrite sapp_cons.
Qed.

Lemma handle_command_set cam state w :
  startswith "CAM_" cam = true ->
  strip ("SET_" +:+ cam +:+ "_" +:+ state) = "SET_" +:+ cam +:+ "_" +:+ state ->
  contains "_"%char state = false ->
  in_set (upper state) ["ON"; "OFF"] = true ->
  handle_command ("SET_" +:+ cam +:+ "_" +:+ state) w
  = write_to_power_feed (cam +:+ "_" +:+ upper state) w.
Proof.
  intros [rest ->]%startswith_inv Hstrip Hstate Hup.
  assert (Hpre : startswith "SET_CAM_" ("SET_" +:+ ("CAM_" +:+ rest) +:+ "_" +:+ state) = true)
    by exact (startswith_self "SET_CAM_" (rest +:+ "_" +:+ state)).
  unfold handle_command. rewrite Hstrip. cbv zeta. rewrite Hpre. cbn [negb].
  change (slice_from _ _) with (("CAM_" +:+ rest) +:+ String "_"%char state).
  by rewrite rsplit1_app, Hup.
Qed.

Lemma toggle_message_clean cam state :
  all_chars is_text_char cam = true ->
  state = "ON" \/ state = "OFF" ->
  clean_message ("SET_" +:+ cam +:+ "_" +:+ state).
Proof.
  intros Hcam Hstate.
  assert (Hr : rstrip ("_" +:+ state) = "_" +:+ state) by (by destruct Hstate as [-> | ->]).
  assert (Hne : cam +:+ "_" +:+ state <> "").
  { destruct cam; [by destruct Hstate as [-> | ->]|by rewrite sapp_cons]. }
  split; [|split].
  - unfold strip. change (lstrip ("SET_" +:+ cam +:+ "_" +:+ state))
      with ("SET_" +:+ cam +:+ "_" +:+ state).
    rewrite rstrip_app; rewrite rstrip_app; rewrite ?Hr; try done.
  - done.
  - rewrite !all_chars_app, Hcam. by destruct Hstate as [-> | ->].
Qed.

(** X25. A press on the power toggle of a camera panel reaches the power
    feed.  With nothing pending on the control feed, a camera id of the
    form [CAM_*] without line terminators and a panel in the state
    [power_state], [_handle_toggle] returns [OFF] for [ON] and [ON]
    otherwise, and the next [read_control_feed] of the control server
    appends the line [<camera_id>_<new state>] to the power feed and
    leaves the control feed empty. *)
Theorem toggle_reaches_power_feed (camera_id power_state : string) (w : World) :
  startswith "CAM_" camera_id = true ->
  all_chars is_text_char camera_id = true ->
  default "" (feed_files w !! feed_file CONTROL_FEED) = "" ->
  exists new_state w1 w2,
    UI._handle_toggle camera_id power_state w = inr (new_state, w1) /\
    new_state = (if String.eqb power_state "ON" then "OFF" else "ON") /\
    read_control_feed w1 = inr (tt, w2) /\
    feed_files w2 !! feed_file POWER_FEED
    = Some (default "" (feed_files w !! feed_file POWER_FEED)
            +:+ (camera_id +:+ "_" +:+ new_state +:+ String LF "")) /\
    feed_files w2 !! feed_file CONTROL_FEED = Some "".
Proof.
  assert (Hfeed : strip CONTROL_FEED <> "") by done.
  intros Hcam Htext Hempty.
  set (new_state := if String.eqb power_state "ON" then "OFF" else "ON").
  assert (Hnew : new_state = "ON" \/ new_state = "OFF").
  { subst new_state. destruct (String.eqb power_state "ON"); auto. }
  assert (Hupper : upper new_state = new_state) by (by destruct Hnew as [-> | ->]).
  destruct (toggle_message_clean camera_id new_state Htext Hnew) as (Hstrip & Hne & Hmsg).
  exists new_state. unfold UI._handle_toggle, UI.send_control_command. cbv zeta.
  fold new_state. rewrite Hupper. io_unfold.
  change UI.CONTROL_FEED with CONTROL_FEED.
  rewrite append_run by exact Hfeed. eexists _, _. split; [reflexivity|]. split; [done|].
  unfold read_control_feed. io_unfold. rewrite consume_run by exact Hfeed.
  unfold set_feed_files at 1 2. cbn [feed_files]. rewrite lookup_insert_eq, Hempty, sapp_nil_l.
  rewrite <- (sapp_nil_l (rstrip_nl _ +:+ _)).
  rewrite stripped_lines_line by (try done; by left).
  change (stripped_lines "") with (@nil string). simpl app.
  rewrite for_each_cons, handle_command_set; try done.
  - rewrite Hupper, write_to_power_feed_run. cbn [for_each]. io_unfold.
    split; [reflexivity|]. unfold power_append, set_feed_files. cbn [feed_files].
    assert (Hfiles : feed_file POWER_FEED <> feed_file CONTROL_FEED) by done.
    split.
    + rewrite lookup_insert_eq, !lookup_insert_ne by done.
      f_equal. f_equal. rewrite rstrip_nl_text; [by rewrite !sapp_assoc|].
      rewrite !all_chars_app, Htext. by destruct Hnew as [-> | ->].
    + rewrite lookup_insert_ne by done. by rewrite lookup_insert_eq.
  - by destruct Hnew as [-> | ->].
  - by rewrite Hupper; destruct Hnew as [-> | ->].
Qed.

Lemma toggle_reaches_power_feed_witness :
  exists new_state w1 w2,
    UI._handle_toggle "CAM_front_door" "ON" demo_world = inr (new_state, w1) /\
    new_state = (if String.eqb "ON" "ON" then "OFF" else "ON") /\
    read_control_feed w1 = inr (tt, w2) /\
    feed_files w2 !! feed_file POWER_FEED
    = Some (default "" (feed_files demo_world !! feed_file POWER_FEED)
            +:+ ("CAM_front_door" +:+ "_" +:+ new_state +:+ String LF "")) /\
    feed_files w2 !! feed_file CONTROL_FEED = Some "".
Proof.
  apply (toggle_reaches_power_feed "CAM_front_door" "ON" demo_world).
  - reflexivity.
  - reflexivity.
  - reflexivity.
Defined.

Section ForceRoundTrip.

Variable MODEL : option (list string -> option (list nat)).
Variable random_gt_half : nat -> bool.
Variable remove_ok : string -> bool.

Lemma force_message_clean cam :
  strip cam = cam -> cam <> "" -> all_chars is_text_char cam = true ->
  clean_message ("FORCE_UPDATE_" +:+ cam).
Proof.
  intros Hstrip Hne Htext. split; [|split].
  - unfold strip. change (lstrip ("FORCE_UPDATE_" +:+ cam)) with ("FORCE_UPDATE_" +:+ cam).
    rewrite rstrip_app; by rewrite rstrip_fixed_strip.
  - done.
  - by rewrite all_chars_app, Htext.
Qed.

(** X26. A press on the force-update button is answered by the image
    server.  With nothing pending on the request feed and a camera id of
    the form [CAM_*] without surrounding whitespace or line terminators,
    [request_force_update] adds the camera to the pending set, and the next
    [process_force_requests] empties the request feed and appends
    [UPDATED_<camera_id>] to the served feed when the camera has a source
    image; when it has none, nothing is appended. *)
Theorem force_request_round_trip (camera_id : string) (pending : gset string) (w : World) :
  startswith "CAM_" camera_id = true ->
  strip camera_id = camera_id ->
  all_chars is_text_char camera_id = true ->
  default "" (feed_files w !! feed_file FORCE_REQUEST_FEED) = "" ->
  exists pending' w1 w2,
    UI.request_force_update camera_id pending w = inr (pending', w1) /\
    camera_id ∈ pending' /\ pending ⊆ pending' /\
    process_force_requests MODEL random_gt_half remove_ok w1 = inr (tt, w2) /\
    default "" (feed_files w2 !! feed_file FORCE_REQUEST_FEED) = "" /\
    default "" (feed_files w2 !! feed_file FORCE_SERVED_FEED)
    = default "" (feed_files w !! feed_file FORCE_SERVED_FEED)
      +:+ match find_source camera_id w with
          | Some _ => "UPDATED_" +:+ camera_id +:+ String LF ""
          | None => ""
          end.
Proof.
  assert (Hfeed : strip FORCE_REQUEST_FEED <> "") by done.
  assert (Hfiles : feed_file FORCE_SERVED_FEED <> feed_file FORCE_REQUEST_FEED) by done.
  intros Hcam Hstrip Htext Hempty.
  assert (Hne : camera_id <> "") by (by destruct camera_id).
  destruct (force_message_clean camera_id Hstrip Hne Htext) as (Hs & Hn & Hm).
  unfold UI.request_force_update. cbv zeta. io_unfold.
  change UI.FORCE_REQUEST_FEED with FORCE_REQUEST_FEED.
  rewrite append_run by exact Hfeed. rewrite Hempty, sapp_nil_l.
  set (w1 := set_feed_files
               (<[feed_file FORCE_REQUEST_FEED :=
                    rstrip_nl ("FORCE_UPDATE_" +:+ camera_id) +:+ String LF ""]> (feed_files w)) w).
  destruct (process_force_requests_feeds MODEL random_gt_half remove_ok
              ["FORCE_UPDATE_" +:+ camera_id] w1) as (w2 & Hrun & Hreq & Hserved & _).
  { rewrite peek_run by exact Hfeed. subst w1. unfold set_feed_files at 1. cbn [feed_files].
    rewrite lookup_insert_eq. rewrite <- (sapp_nil_l (rstrip_nl _ +:+ _)).
    rewrite stripped_lines_line by (try done; by left). reflexivity. }
  exists ({[camera_id]} ∪ pending), w1, w2.
  split; [reflexivity|]. split; [set_solver|]. split; [set_solver|].
  split; [exact Hrun|]. split; [exact Hreq|].
  rewrite Hserved. subst w1. unfold set_feed_files at 1. cbn [feed_files].
  rewrite lookup_insert_ne by done. f_equal.
  cbn [omap list_omap]. unfold served_camera. cbv zeta.
  rewrite startswith_self, slice_from_self, Hstrip, Hcam. cbn [andb].
  rewrite (find_source_frame camera_id _ w) by done.
  destruct (find_source camera_id w); [|done].
  unfold acknowledgements. simpl fold_right. by rewrite sapp_nil_r.
Qed.

End ForceRoundTrip.

Lemma force_request_round_trip_witness :
  exists pending' w1 w2,
    UI.request_force_update "CAM_2" ∅ demo_world = inr (pending', w1) /\
    "CAM_2" ∈ pending' /\ ∅ ⊆ pending' /\
    process_force_requests None (fun _ => true) (fun _ => true) w1 = inr (tt, w2) /\
    default "" (feed_files w2 !! feed_file FORCE_REQUEST_FEED) = "" /\
    default "" (feed_files w2 !! feed_file FORCE_SERVED_FEED)
    = default "" (feed_files demo_world !! feed_file FORCE_SERVED_FEED)
      +:+ match find_source "CAM_2" demo_world with
          | Some _ => "UPDATED_" +:+ "CAM_2" +:+ String LF ""
          | None => ""
          end.
Proof.
  apply (force_request_round_trip None (fun _ => true) (fun _ => true) "CAM_2" ∅ demo_world).
  - reflexivity.
  - reflexivity.
  - reflexivity.
  - reflexivity.
Defined.

(** ** The models at work *)

Example strip_example :
  strip (String "009"%char (" a b " +:+ String LF "")) = "a b".
Proof. reflexivity. Qed.

Example rsplit1_example :
  rsplit1 "_"%char "CAM_front_door_ON" = Some ("CAM_front_door", "ON").
Proof. reflexivity. Qed.

Example splitext_example :
  splitext "images_src/CAM_a.b.JPG" = ("images_src/CAM_a.b", ".JPG") /\
  splitext "..jpg" = ("..jpg", "") /\
  splitext "CAM_1" = ("CAM_1", "").
Proof. repeat split. Qed.

Example readlines_example :
  readlines (universal_newlines ("a" +:+ String CR (String LF ("b" +:+ String CR "c"))))
  = ["a" +:+ String LF ""; "b" +:+ String LF ""; "c"].
Proof. reflexivity. Qed.

Example parse_status_example :
  _parse_status_filename "CAM_a_b_yes.JPEG" = Some ("CAM_a_b", "YES") /\
  _parse_status_filename "cam_1_YES.jpg" = None /\
  _parse_status_filename "CAM_1_NO.txt" = None /\
  _parse_status_filename "CAM_1_MAYBE.jpg" = None.
Proof. repeat split. Qed.

(** The control round trip of the specification: [SET_CAM_front_door_ON]
    gives one line [CAM_front_door_ON] on the power feed, [TURN_ON_CAM_X]
    gives none. *)
Example control_round_trip :
  read_control_feed
    (mkWorld {[ "feeds/control.feed" :=
                  "SET_CAM_front_door_ON" +:+ String LF ("TURN_ON_CAM_X" +:+ String LF "") ]}
             [] [] 0)
  = inr (tt, mkWorld {[ "feeds/control.feed" := "";
                        "feeds/POWER.feed" := "CAM_front_door_ON" +:+ String LF "" ]}
                     [] [] 0).
Proof. vm_compute. reflexivity. Qed.

(** One turn of the control server: a command is forwarded and the two
    cameras of the ready directory are counted. *)
Example main_iteration_example :
  main_iteration ∅
    (mkWorld {[ "feeds/control.feed" := "SET_CAM_1_off" +:+ String LF "" ]} []
             [("CAM_1_NO.jpg", "x"); ("CAM_2_YES.png", "y"); ("readme.md", "z")] 0)
  = inr ({[ "CAM_1" := 1; "CAM_2" := 0 ]},
         mkWorld {[ "feeds/control.feed" := "";
                    "feeds/POWER.feed" := "CAM_1_OFF" +:+ String LF "" ]} []
                 [("CAM_1_NO.jpg", "x"); ("CAM_2_YES.png", "y"); ("readme.md", "z")] 0).
Proof. vm_compute. reflexivity. Qed.

(** A detector that raises: the batch path writes [NO] for every source
    image and replaces the stale artifacts. *)
Example capture_example :
  capture_and_update_images (Some (fun _ => None)) (fun _ => true) (fun _ => true) demo_world
  = inr (tt, set_images_ready
               [("CAM_1_NO.jpg", "image 1"); ("CAM_2_NO.jpg", "image 2")] demo_world).
Proof. vm_compute. reflexivity. Qed.

(** Three requests: one served, one without source image, one malformed. *)
Example process_force_requests_example :
  process_force_requests (Some (fun _ => Some [3])) (fun _ => true) (fun _ => true)
    (mkWorld {[ "feeds/force_request.feed" :=
                  "FORCE_UPDATE_CAM_1" +:+ String LF
                    ("FORCE_UPDATE_CAM_9" +:+ String LF ("hello" +:+ String LF "")) ]}
             [("CAM_1.jpg", "image 1")] [("CAM_1_NO.jpg", "old")] 0)
  = inr (tt, mkWorld {[ "feeds/force_request.feed" := "";
                        "feeds/force_served.feed" := "UPDATED_CAM_1" +:+ String LF "" ]}
                     [("CAM_1.jpg", "image 1")] [("CAM_1_YES.jpg", "image 1")] 0).
Proof. vm_compute. reflexivity. Qed.

(** A stale artifact that cannot be removed stays next to the new one. *)
Example stale_artifact_example :
  _write_ready_image (fun _ => false) "images_src/CAM_1.jpg" "CAM_1" "YES" demo_world
  = inr (tt, set_images_ready
               [("CAM_1_NO.jpg", "old image"); ("CAM_1_yes.PNG", "older image");
                ("CAM_1_YES.jpg", "image 1")] demo_world).
Proof. reflexivity. Qed.
